(** * Service-worker caching layer of GGStoreCalatogs ([public/sw.js])

    A shallow embedding of the worker script: its constants, the three event
    listeners ([install], [activate], [fetch]), the two helper predicates and
    the two strategies [cacheFirst] and [networkFirst].

    The script talks to the browser through promises.  A promise-returning
    call is embedded as a function from the current [CacheStorage] to a
    settled outcome (fulfilled or rejected), the storage it leaves behind and
    the host calls it made; [await], [.then] and [try]/[catch] become the
    bind and the handler of that monad.  One handler invocation runs without
    interleaving with another. *)

From Stdlib Require Import String Ascii List ZArith Bool Lia.
Import ListNotations.
Local Open Scope string_scope.
Local Open Scope Z_scope.

(** ** JavaScript values used by the script *)

(** The result of [new URL(request.url)]: the parts the script reads. *)
Record URL := mkURL {
  protocol : string;                      (* "https:", "chrome-extension:" *)
  origin : string;                        (* "https://shop.example" *)
  pathname : string;
  searchParams : list (string * string)
}.

Record Request := mkRequest {
  url : URL;
  method : string;
  destination : string
}.

Record Response := mkResponse {
  status : Z;
  headers : list (string * string);
  body : string
}.

(** [response.ok]: the status is in the range 200-299. *)
Definition ok (r : Response) : bool :=
  (200 <=? status r) && (status r <=? 299).

Definition clone (r : Response) : Response := r.

(** The second argument of [new Response(body, init)]. *)
Record ResponseInit := mkInit {
  init_status : option Z;
  init_headers : list (string * string)
}.

(** [new Response(body, init)]; the status defaults to 200.  The content type
    the platform derives from a string body when [init] names none is not
    modelled. *)
Definition new_Response (b : string) (init : ResponseInit) : Response :=
  {| status := match init_status init with Some st => st | None => 200 end;
     headers := init_headers init;
     body := b |}.

Fixpoint headers_get (hs : list (string * string)) (name : string)
  : option string :=
  match hs with
  | [] => None
  | (k, v) :: hs' => if String.eqb k name then Some v else headers_get hs' name
  end.

(** [s.startsWith(p)]. *)
Definition startsWith (s p : string) : bool := String.prefix p s.

(** [s.includes(sub)]. *)
Fixpoint includes (s sub : string) : bool :=
  if String.prefix sub s then true
  else match s with
       | EmptyString => false
       | String _ s' => includes s' sub
       end.

(** [pattern.test(s)] for the script's patterns, which are escaped literals
    without anchors: the test is a substring search. *)
Definition regex_test (pattern s : string) : bool := includes s pattern.

(** [searchParams.has(name)]. *)
Definition searchParams_has (ps : list (string * string)) (name : string)
  : bool :=
  existsb (fun p => String.eqb (fst p) name) ps.

Fixpoint params_eqb (p q : list (string * string)) : bool :=
  match p, q with
  | [], [] => true
  | (k, v) :: p', (k', v') :: q' =>
      String.eqb k k' && String.eqb v v' && params_eqb p' q'
  | _, _ => false
  end.

Definition URL_eqb (u v : URL) : bool :=
  String.eqb (protocol u) (protocol v)
  && String.eqb (origin u) (origin v)
  && String.eqb (pathname u) (pathname v)
  && params_eqb (searchParams u) (searchParams v).

(** ** Constants of the script *)

Definition CACHE_NAME : string := "ggcasecatalogs-v1".
Definition STATIC_CACHE : string := "static-v1".
Definition DYNAMIC_CACHE : string := "dynamic-v1".

Definition DEBUG : bool := false.

Definition STATIC_ASSETS : list string :=
  ["/"; "/manifest.json"; "/favicon.ico"].

Definition API_CACHE_PATTERNS : list string :=
  ["/api/products"; "/api/brands"; "/api/categories"].

(** ** The Cache API *)

(** A named store maps request URLs to response snapshots; the stores of an
    origin are kept in creation order, which is the order [caches.keys()]
    lists them in and [caches.match] searches them in. *)
Definition Cache := list (URL * Response).
Definition CacheStorage := list (string * Cache).

Fixpoint cache_lookup (c : Cache) (u : URL) : option Response :=
  match c with
  | [] => None
  | (k, r) :: c' => if URL_eqb k u then Some r else cache_lookup c' u
  end.

(** [cache.match(request)]: only GET requests match (no [ignoreMethod]);
    [Vary] headers are not modelled. *)
Definition cache_match (c : Cache) (request : Request) : option Response :=
  if String.eqb (method request) "GET" then cache_lookup c (url request)
  else None.

Fixpoint cache_insert (c : Cache) (u : URL) (r : Response) : Cache :=
  match c with
  | [] => [(u, r)]
  | (k, r0) :: c' =>
      if URL_eqb k u then (k, r) :: c' else (k, r0) :: cache_insert c' u r
  end.

(** [caches.match(request)] on the whole storage: the first store, in
    creation order, that has a match answers. *)
Fixpoint storage_match (s : CacheStorage) (request : Request)
  : option Response :=
  match s with
  | [] => None
  | (_, c) :: s' =>
      match cache_match c request with
      | Some r => Some r
      | None => storage_match s' request
      end
  end.

Fixpoint storage_get (s : CacheStorage) (name : string) : option Cache :=
  match s with
  | [] => None
  | (n, c) :: s' => if String.eqb n name then Some c else storage_get s' name
  end.

Definition storage_has (s : CacheStorage) (name : string) : bool :=
  existsb (fun p => String.eqb (fst p) name) s.

Definition storage_names (s : CacheStorage) : list string := map fst s.

Fixpoint storage_update (s : CacheStorage) (name : string)
  (f : Cache -> Cache) : CacheStorage :=
  match s with
  | [] => []
  | (n, c) :: s' =>
      if String.eqb n name then (n, f c) :: s'
      else (n, c) :: storage_update s' name f
  end.

Definition storage_remove (s : CacheStorage) (name : string) : CacheStorage :=
  filter (fun p => negb (String.eqb (fst p) name)) s.

(** ** Promises as a state, log and rejection monad *)

Inductive Exn := NetworkError | TypeError | StorageError.

Inductive Settled (A : Type) :=
| Fulfilled (a : A)
| Rejected (e : Exn).
Arguments Fulfilled {A} a.
Arguments Rejected {A} e.

(** The calls on the host that the properties below observe. *)
Inductive Event :=
| NetFetch (request : Request)
| CacheDelete (name : string)
| SkipWaiting
| ClientsClaim
| ConsoleLog (msg : string)
| ConsoleWarn (msg : string) (e : Exn)
| ConsoleError (msg : string) (e : Exn).

Record Run (A : Type) := mkRun {
  outcome : Settled A;
  storage : CacheStorage;
  events : list Event
}.
Arguments mkRun {A} _ _ _.
Arguments outcome {A} _.
Arguments storage {A} _.
Arguments events {A} _.

Definition Async (A : Type) : Type := CacheStorage -> Run A.

Definition ret {A} (a : A) : Async A := fun s => mkRun (Fulfilled a) s [].

Definition throw {A} (e : Exn) : Async A := fun s => mkRun (Rejected e) s [].

Definition bind {A B} (m : Async A) (k : A -> Async B) : Async B :=
  fun s =>
    let r := m s in
    match outcome r with
    | Fulfilled a =>
        let r' := k a (storage r) in
        mkRun (outcome r') (storage r') (events r ++ events r')
    | Rejected e => mkRun (Rejected e) (storage r) (events r)
    end.

(** [try { m } catch (error) { handler(error) }] and [m.catch(handler)]:
    what [m] wrote before it failed stays written. *)
Definition try_catch {A} (m : Async A) (handler : Exn -> Async A) : Async A :=
  fun s =>
    let r := m s in
    match outcome r with
    | Fulfilled a => r
    | Rejected e =>
        let r' := handler e (storage r) in
        mkRun (outcome r') (storage r') (events r ++ events r')
    end.

Definition emit (ev : Event) : Async unit := fun s => mkRun (Fulfilled tt) s [ev].

Declare Scope async_scope.
Delimit Scope async_scope with async.
Notation "x <- m ;; k" := (bind m (fun x => k))
  (at level 61, m at next level, right associativity) : async_scope.
Notation "m ;; k" := (bind m (fun _ => k))
  (at level 61, right associativity) : async_scope.
Notation "'try' m 'catch' h" := (try_catch m h)
  (at level 62, m at level 61, h at level 61) : async_scope.
Local Open Scope async_scope.

(** [Promise.all(ps)] over operations that have all been started: each one
    runs to its end, and the aggregate rejects with the first rejection. *)
Fixpoint Promise_all {A} (ps : list (Async A)) : Async (list A) :=
  match ps with
  | [] => ret []
  | p :: ps' =>
      fun s =>
        let r1 := p s in
        let r2 := Promise_all ps' (storage r1) in
        mkRun
          match outcome r1, outcome r2 with
          | Fulfilled a, Fulfilled l => Fulfilled (a :: l)
          | Rejected e, _ => Rejected e
          | Fulfilled _, Rejected e => Rejected e
          end
          (storage r2) (events r1 ++ events r2)
  end.

(** A batch of cache writes is all or nothing. *)
Definition atomically {A} (m : Async A) : Async A :=
  fun s =>
    let r := m s in
    match outcome r with
    | Fulfilled _ => r
    | Rejected e => mkRun (Rejected e) s (events r)
    end.

Fixpoint sequence_ (ms : list (Async unit)) : Async unit :=
  match ms with
  | [] => ret tt
  | m :: ms' => m ;; sequence_ ms'
  end.

(** ** The host: network, storage failures, worker location *)

(** What the browser decides for the worker.  [network] answers a fetch
    ([None]: the fetch rejects); the remaining fields say whether a storage
    operation goes through. *)
Record Host := mkHost {
  location : URL;                               (* self.location *)
  network : Request -> option Response;
  open_succeeds : string -> bool;
  keys_succeeds : bool;
  delete_succeeds : string -> bool;
  put_succeeds : string -> Request -> bool
}.

Section Worker.

Variable host : Host.

(** [fetch(request)]. *)
Definition fetch (request : Request) : Async Response :=
  fun s =>
    match network host request with
    | Some r => mkRun (Fulfilled r) s [NetFetch request]
    | None => mkRun (Rejected NetworkError) s [NetFetch request]
    end.

(** [caches.open(name)]: the store is created, last in order, when there is
    none of that name.  The handle of an open store is its name. *)
Definition caches_open (name : string) : Async string :=
  fun s =>
    if open_succeeds host name then
      mkRun (Fulfilled name)
            (if storage_has s name then s else (s ++ [(name, [])])%list) []
    else mkRun (Rejected StorageError) s [].

(** [cache.put(request, response)]: a [TypeError] for a scheme other than
    http or https, a method other than GET, or a 206 response. *)
Definition cache_put (cache : string) (request : Request) (r : Response)
  : Async unit :=
  fun s =>
    if negb (String.eqb (protocol (url request)) "http:"
             || String.eqb (protocol (url request)) "https:")
       || negb (String.eqb (method request) "GET")
       || (status r =? 206)
    then mkRun (Rejected TypeError) s []
    else if put_succeeds host cache request then
      mkRun (Fulfilled tt)
            (storage_update s cache (fun c => cache_insert c (url request) r))
            []
    else mkRun (Rejected StorageError) s [].

(** [caches.match(request)]; the lookup itself is taken not to reject. *)
Definition caches_match (request : Request) : Async (option Response) :=
  fun s => mkRun (Fulfilled (storage_match s request)) s [].

(** [caches.keys()]. *)
Definition caches_keys : Async (list string) :=
  fun s =>
    if keys_succeeds host then mkRun (Fulfilled (storage_names s)) s []
    else mkRun (Rejected StorageError) s [].

(** [caches.delete(name)]: fulfils with whether the store existed. *)
Definition caches_delete (name : string) : Async bool :=
  fun s =>
    if delete_succeeds host name then
      mkRun (Fulfilled (storage_has s name)) (storage_remove s name)
            [CacheDelete name]
    else mkRun (Rejected StorageError) s [CacheDelete name].

(** The request [cache.addAll] builds from a manifest path: a GET of the
    path resolved against the worker's own location. *)
Definition request_of_path (p : string) : Request :=
  {| url := {| protocol := protocol (location host);
               origin := origin (location host);
               pathname := p;
               searchParams := [] |};
     method := "GET";
     destination := EmptyString |}.

(** [cache.addAll(paths)]: every path is fetched; when one fetch rejects or
    one response is not [ok] the call rejects and nothing is written. *)
Definition cache_addAll (cache : string) (paths : list string) : Async unit :=
  let requests := map request_of_path paths in
  responses <- Promise_all (map fetch requests) ;;
  if forallb ok responses then
    atomically
      (sequence_ (map (fun p => cache_put cache (fst p) (snd p))
                      (combine requests responses)))
  else throw TypeError.

(** [self.skipWaiting()], [self.clients.claim()] and the console: recorded,
    and taken not to reject. *)
Definition skipWaiting : Async unit := emit SkipWaiting.
Definition clients_claim : Async unit := emit ClientsClaim.
Definition console_log (msg : string) : Async unit := emit (ConsoleLog msg).
Definition console_warn (msg : string) (e : Exn) : Async unit :=
  emit (ConsoleWarn msg e).
Definition console_error (msg : string) (e : Exn) : Async unit :=
  emit (ConsoleError msg e).

(** ** The script *)

Definition log (msg : string) : Async unit :=
  if DEBUG then console_log msg else ret tt.

(** The [install] listener: the promise handed to [event.waitUntil].  The
    host completes the installation when it fulfils and aborts it when it
    rejects. *)
Definition install_listener : Async unit :=
  log "Service Worker installing..." ;;
  (try (cache <- caches_open STATIC_CACHE ;;
       log "Caching static assets..." ;;
       cache_addAll cache STATIC_ASSETS ;;
       log "Static assets cached, skipping waiting..." ;;
       skipWaiting)
  catch (fun error => console_error "Service Worker install failed:" error)).

(** The filter of the [activate] listener. *)
Definition is_stale (cacheName : string) : bool :=
  negb (String.eqb cacheName STATIC_CACHE)
  && negb (String.eqb cacheName DYNAMIC_CACHE)
  && negb (String.eqb cacheName CACHE_NAME).

(** The [activate] listener: the promise handed to [event.waitUntil]. *)
Definition activate_listener : Async unit :=
  log "Service Worker activating..." ;;
  (try (cacheNames <- caches_keys ;;
       log "Cleaning up old caches..." ;;
       Promise_all
         (map (fun cacheName =>
                 log "Deleting cache:" ;; caches_delete cacheName)
              (filter is_stale cacheNames)) ;;
       log "Service Worker activated, claiming clients..." ;;
       clients_claim)
  catch (fun error => console_error "Service Worker activation failed:" error)).

Definition isApiRequest (u : URL) : bool :=
  existsb (fun pattern => regex_test pattern (pathname u)) API_CACHE_PATTERNS.

Definition isCacheableRequest (request : Request) : bool :=
  let u := url request in
  if negb (startsWith (protocol u) "http") then false
  else
    let sp := searchParams u in
    if searchParams_has sp "_t" || searchParams_has sp "timestamp"
       || searchParams_has sp "nocache"
    then false
    else if negb (String.eqb (method request) "GET") then false
    else true.

(** What the [fetch] listener does with an event: return without answering
    ([Skip]), or answer with one of the two strategies. *)
Inductive Verdict := Skip | CacheFirst | NetworkFirst.

Definition fetch_listener (request : Request) : Verdict :=
  let u := url request in
  if negb (startsWith (protocol u) "http") then Skip
  else if negb (String.eqb (origin u) (origin (location host)))
          && negb (isApiRequest u)
  then Skip
  else if String.eqb (method request) "GET" then
    if String.eqb (destination request) "script"
       || String.eqb (destination request) "style"
       || String.eqb (destination request) "image"
    then CacheFirst
    else if existsb (fun pattern => regex_test pattern (pathname u))
                    API_CACHE_PATTERNS
    then NetworkFirst
    else if String.eqb (destination request) "document" then NetworkFirst
    else if String.eqb (origin u) (origin (location host)) then NetworkFirst
    else Skip
  else Skip.

Definition offline_status : ResponseInit :=
  {| init_status := Some 503; init_headers := [] |}.

(** The [catch] block of [cacheFirst]. *)
Definition cacheFirst_catch (request : Request) (error : Exn)
  : Async Response :=
  console_error "Cache first strategy failed:" error ;;
  cachedResponse <- caches_match request ;;
  match cachedResponse with
  | Some r => ret r
  | None => ret (new_Response "Offline" offline_status)
  end.

Definition cacheFirst (request : Request) : Async Response :=
  try (cachedResponse <- caches_match request ;;
       match cachedResponse with
       | Some r => ret r
       | None =>
           networkResponse <- fetch request ;;
           (if ok networkResponse && isCacheableRequest request then
              try (cache <- caches_open STATIC_CACHE ;;
                   cache_put cache request (clone networkResponse))
              catch (fun cacheError =>
                       console_warn "Failed to cache response:" cacheError)
            else ret tt) ;;
           ret networkResponse
       end)
  catch (cacheFirst_catch request).

Definition dq : string := String (ascii_of_nat 34) EmptyString.
Definition nl : string := String (ascii_of_nat 10) EmptyString.

(** The template literal of the offline page, line by line. *)
Definition offline_page : string :=
  String.concat nl
    [ EmptyString;
      "        <!DOCTYPE html>";
      "        <html>";
      "        <head>";
      "          <title>Offline - GG Case Catalogs</title>";
      "          <style>";
      "            body { font-family: Arial, sans-serif; text-align: center; padding: 2rem; }";
      "            .offline-message { max-width: 400px; margin: 0 auto; }";
      "            .retry-button { ";
      "              padding: 0.5rem 1rem; ";
      "              background: #3498db; ";
      "              color: white; ";
      "              border: none; ";
      "              border-radius: 4px; ";
      "              cursor: pointer; ";
      "              margin-top: 1rem;";
      "            }";
      "          </style>";
      "        </head>";
      "        <body>";
      "          <div class=" ++ dq ++ "offline-message" ++ dq ++ ">";
      "            <h1>You're Offline</h1>";
      "            <p>Please check your internet connection and try again.</p>";
      "            <button class=" ++ dq ++ "retry-button" ++ dq ++ " onclick="
        ++ dq ++ "location.reload()" ++ dq ++ ">Retry</button>";
      "          </div>";
      "        </body>";
      "        </html>";
      "      " ].

Definition offline_page_init : ResponseInit :=
  {| init_status := None; init_headers := [("Content-Type", "text/html")] |}.

(** The [catch] block of [networkFirst]. *)
Definition networkFirst_catch (request : Request) (error : Exn)
  : Async Response :=
  console_warn "Network request failed, trying cache:" error ;;
  cachedResponse <- caches_match request ;;
  match cachedResponse with
  | Some r => ret r
  | None =>
      if String.eqb (destination request) "document" then
        ret (new_Response offline_page offline_page_init)
      else ret (new_Response "Offline" offline_status)
  end.

Definition networkFirst (request : Request) : Async Response :=
  try (networkResponse <- fetch request ;;
       (if ok networkResponse && isCacheableRequest request then
          try (cache <- caches_open DYNAMIC_CACHE ;;
               cache_put cache request (clone networkResponse))
          catch (fun cacheError =>
                   console_warn "Failed to cache response:" cacheError)
        else ret tt) ;;
       ret networkResponse)
  catch (networkFirst_catch request).

(** The [fetch] listener with its answer: [None] when the event is left to
    the browser, the promise given to [event.respondWith] otherwise. *)
Definition respond (request : Request) : option (Async Response) :=
  match fetch_listener request with
  | Skip => None
  | CacheFirst => Some (cacheFirst request)
  | NetworkFirst => Some (networkFirst request)
  end.

End Worker.

(** ** Vocabulary of the properties *)

(** The names the [activate] listener keeps. *)
Definition live_names : list string :=
  [STATIC_CACHE; DYNAMIC_CACHE; CACHE_NAME].

(** The stores created before the first store called [name]. *)
Fixpoint stores_before (s : CacheStorage) (name : string) : CacheStorage :=
  match s with
  | [] => []
  | (n, c) :: s' =>
      if String.eqb n name then [] else (n, c) :: stores_before s' name
  end.

(** No store of [s] has an entry for [request]. *)
Definition uncached (s : CacheStorage) (request : Request) : Prop :=
  forall name c, In (name, c) s -> cache_match c request = None.

(** The scheme is http or https. *)
Definition http_scheme (u : URL) : Prop :=
  protocol u = "http:" \/ protocol u = "https:".

(** The query string carries one of the no-cache markers. *)
Definition has_nocache_marker (request : Request) : Prop :=
  searchParams_has (searchParams (url request)) "_t" = true
  \/ searchParams_has (searchParams (url request)) "timestamp" = true
  \/ searchParams_has (searchParams (url request)) "nocache" = true.

Definition no_fetch (evs : list Event) : Prop :=
  forall request, ~ In (NetFetch request) evs.


(** The enumeration of the stores, or the deletion of a stale one, fails. *)
Definition cleanup_fails (h : Host) (s : CacheStorage) : Prop :=
  keys_succeeds h = false
  \/ exists n, In n (storage_names s) /\ is_stale n = true
               /\ delete_succeeds h n = false.

(** The deletions the [activate] listener starts for the names it filtered:
    the argument of its [Promise.all]. *)
Definition purge (h : Host) (names : list string) : Async (list bool) :=
  Promise_all
    (map (fun cacheName => log "Deleting cache:" ;; caches_delete h cacheName)
         names).

(** *** The claims that do not hold as worded, as propositions *)

(** A request with an entry in the static store is answered by
    [cacheFirst] with that entry and without a fetch. *)
Definition static_entry_served (h : Host) (s : CacheStorage) (R : Request)
  : Prop :=
  forall c resp,
    storage_get s STATIC_CACHE = Some c -> cache_match c R = Some resp ->
    outcome (cacheFirst h R s) = Fulfilled resp
    /\ no_fetch (events (cacheFirst h R s)).

(** When the fetch fails, [networkFirst] answers with the entry of the
    dynamic store. *)
Definition dynamic_entry_served (h : Host) (s : CacheStorage) (R : Request)
  : Prop :=
  forall c resp,
    storage_get s DYNAMIC_CACHE = Some c -> cache_match c R = Some resp ->
    network h R = None ->
    outcome (networkFirst h R s) = Fulfilled resp.


(** A failing cleanup still reaches [clients.claim()]. *)
Definition cleanup_failure_still_claims (h : Host) (s : CacheStorage) : Prop :=
  cleanup_fails h s -> In ClientsClaim (events (activate_listener h s)).

(** ** Concrete hosts, stores and requests *)

Definition shop : URL :=
  {| protocol := "https:"; origin := "https://shop.example";
     pathname := "/sw.js"; searchParams := [] |}.

Definition shop_url (path : string) (query : list (string * string)) : URL :=
  {| protocol := "https:"; origin := "https://shop.example";
     pathname := path; searchParams := query |}.

Definition GET (u : URL) (dest : string) : Request :=
  {| url := u; method := "GET"; destination := dest |}.

(** A host whose network answers every request with a 200 response carrying
    [tag] and the path, and whose storage never fails. *)
Definition serving (tag : string) : Host :=
  mkHost shop
         (fun r => Some (mkResponse 200 [] (tag ++ pathname (url r))))
         (fun _ => true) true (fun _ => true) (fun _ _ => true).

(** A host without network. *)
Definition offline : Host :=
  mkHost shop (fun _ => None)
         (fun _ => true) true (fun _ => true) (fun _ _ => true).

(** A host whose store enumeration fails. *)
Definition keys_failing : Host :=
  mkHost shop (fun _ => None)
         (fun _ => true) false (fun _ => true) (fun _ _ => true).

(** A host that enumerates the stores but cannot delete [old-v0]. *)
Definition delete_failing : Host :=
  mkHost shop (fun _ => None)
         (fun _ => true) true (fun n => negb (String.eqb n "old-v0"))
         (fun _ _ => true).

Definition favicon : Request := GET (shop_url "/favicon.ico" []) "image".
Definition home : Request := GET (shop_url "/" []) "document".
Definition app_js : Request := GET (shop_url "/app.js" []) "script".
Definition products : Request := GET (shop_url "/api/products" []) EmptyString.
Definition fresh_products : Request :=
  GET (shop_url "/api/products" [("nocache", "1")]) EmptyString.

Definition post_products : Request :=
  {| url := shop_url "/api/products" []; method := "POST";
     destination := EmptyString |}.

Definition old_favicon : Response := mkResponse 200 [] "favicon of the last release".
Definition cached_products : Response := mkResponse 200 [] "[{id:1}]".
Definition cached_app_js : Response := mkResponse 200 [] "console.log(1)".

(** A store left by an earlier release under the name the script keeps. *)
Definition legacy_storage : CacheStorage :=
  [(CACHE_NAME, [(url favicon, old_favicon)])].

(** The stores after this worker installed over [legacy_storage]. *)
Definition installed_over_legacy : CacheStorage :=
  storage (install_listener (serving "v1") legacy_storage).

(** The stores after an installation from scratch followed by one successful
    navigation to the home page served by the next release. *)
Definition installed_then_visited : CacheStorage :=
  storage (networkFirst (serving "v2") home
             (storage (install_listener (serving "v1") []))).

Definition three_stores : CacheStorage :=
  [("static-v1", [(url app_js, cached_app_js)]);
   ("dynamic-v1", [(url products, cached_products)]);
   ("old-v0", [(url favicon, old_favicon)])].

Definition only_dynamic : CacheStorage :=
  [(STATIC_CACHE, []); (DYNAMIC_CACHE, [(url app_js, cached_app_js)])].

Definition only_static : CacheStorage :=
  [(STATIC_CACHE, [(url products, cached_products)]); (DYNAMIC_CACHE, [])].

(** A GET of the API path under a scheme that is not http or https but
    starts with the same four letters. *)
Definition httpx_request : Request :=
  GET {| protocol := "httpx:"; origin := "null";
         pathname := "/api/products"; searchParams := [] |} "image".


(** ** The rest of the script, and names for its parts *)

(** [doBackgroundSync]. *)
Definition doBackgroundSync : Async unit :=
  console_log "Background sync triggered".

(** The [sync] listener: [None] when the tag is not the one it waits for,
    the promise handed to [event.waitUntil] otherwise. *)
Definition sync_listener (tag : string) : option (Async unit) :=
  if String.eqb tag "background-sync" then Some doBackgroundSync else None.

(** The inner [try]/[catch] of both strategies: open the strategy's store
    and put a clone of the response, a failure being logged as a warning. *)
Definition write_through (h : Host) (name : string) (request : Request)
  (r : Response) : Async unit :=
  try (cache <- caches_open h name ;;
       cache_put h cache request (clone r))
  catch (fun cacheError =>
           console_warn "Failed to cache response:" cacheError).

(** The storage once [caches.open(name)] went through. *)
Definition with_store (s : CacheStorage) (name : string) : CacheStorage :=
  if storage_has s name then s else (s ++ [(name, [])])%list.

(** The cases in which [cache.put] rejects with a [TypeError]. *)
Definition put_type_error (request : Request) (r : Response) : bool :=
  negb (String.eqb (protocol (url request)) "http:"
        || String.eqb (protocol (url request)) "https:")
  || negb (String.eqb (method request) "GET")
  || (status r =? 206).

(** A manifest path is answered by the network with a response that
    [cache.addAll] accepts and the static store takes. *)
Definition asset_served (h : Host) (p : string) (r : Response) : Prop :=
  network h (request_of_path h p) = Some r
  /\ ok r = true /\ status r <> 206
  /\ put_succeeds h STATIC_CACHE (request_of_path h p) = true.

(** The write of [r] under [request] into the store [name] fails. *)
Definition write_fails (h : Host) (name : string) (request : Request)
  (r : Response) : Prop :=
  open_succeeds h name = false
  \/ put_type_error request r = true
  \/ put_succeeds h name request = false.

(** A host that serves every request but whose stores cannot be opened. *)
Definition storage_down : Host :=
  mkHost shop
         (fun r => Some (mkResponse 200 [] (pathname (url r))))
         (fun _ => false) true (fun _ => true) (fun _ _ => true).

(** A host whose network answers every request with a 404. *)
Definition not_found : Host :=
  mkHost shop (fun _ => Some (mkResponse 404 [] "Not Found"))
         (fun _ => true) true (fun _ => true) (fun _ _ => true).

(** The operation [m] leaves the store called [n] as it is, created or not
    and with the same entries, from whatever storage it starts. *)
Definition preserves {A} (n : string) (m : Async A) : Prop :=
  forall s, storage_get (storage (m s)) n = storage_get s n.

(** A request as a browser hands it to the [fetch] listener: over http or
    https, or over a scheme of the browser's own such as
    [chrome-extension:], none of which begins with [http]. *)
Definition receivable (request : Request) : Prop :=
  startsWith (protocol (url request)) "http" = true ->
  http_scheme (url request).

(** ** The strategies on a host whose cache lookup can fail *)

(** [caches.match(request)] when the lookup itself may reject:
    [lookup_ok] says whether it goes through. *)
Definition caches_match_on (lookup_ok : bool) (request : Request)
  : Async (option Response) :=
  if lookup_ok then caches_match request else throw StorageError.

(** [cacheFirst] and [networkFirst] with their catch blocks, with that
    lookup in the place of [caches_match]. *)
Definition cacheFirst_catch_on (lookup_ok : bool) (request : Request)
  (error : Exn) : Async Response :=
  console_error "Cache first strategy failed:" error ;;
  cachedResponse <- caches_match_on lookup_ok request ;;
  match cachedResponse with
  | Some r => ret r
  | None => ret (new_Response "Offline" offline_status)
  end.

Definition cacheFirst_on (lookup_ok : bool) (h : Host) (request : Request)
  : Async Response :=
  try (cachedResponse <- caches_match_on lookup_ok request ;;
       match cachedResponse with
       | Some r => ret r
       | None =>
           networkResponse <- fetch h request ;;
           (if ok networkResponse && isCacheableRequest request then
              try (cache <- caches_open h STATIC_CACHE ;;
                   cache_put h cache request (clone networkResponse))
              catch (fun cacheError =>
                       console_warn "Failed to cache response:" cacheError)
            else ret tt) ;;
           ret networkResponse
       end)
  catch (cacheFirst_catch_on lookup_ok request).

Definition networkFirst_catch_on (lookup_ok : bool) (request : Request)
  (error : Exn) : Async Response :=
  console_warn "Network request failed, trying cache:" error ;;
  cachedResponse <- caches_match_on lookup_ok request ;;
  match cachedResponse with
  | Some r => ret r
  | None =>
      if String.eqb (destination request) "document" then
        ret (new_Response offline_page offline_page_init)
      else ret (new_Response "Offline" offline_status)
  end.

Definition networkFirst_on (lookup_ok : bool) (h : Host) (request : Request)
  : Async Response :=
  try (networkResponse <- fetch h request ;;
       (if ok networkResponse && isCacheableRequest request then
          try (cache <- caches_open h DYNAMIC_CACHE ;;
               cache_put h cache request (clone networkResponse))
          catch (fun cacheError =>
                   console_warn "Failed to cache response:" cacheError)
        else ret tt) ;;
       ret networkResponse)
  catch (networkFirst_catch_on lookup_ok request).

(** * [lib/ResourcePreloader.js] *)

Module ResourcePreloader.

(** A [<link>] element as the preloader fills it in; a field left unset is
    [None]. *)
Record Link := mkLink {
  rel : string;
  as_ : option string;
  href : string;
  type_ : option string;
  crossOrigin : option string;
  fetchPriority : option string
}.

(** The preloader object together with the links it appended to
    [document.head], oldest first.  The [Set] keeps insertion order. *)
Record Page := mkPage {
  preloadedResources : list string;
  preloadQueue : list string;
  isProcessing : bool;
  head : list Link
}.

(** [new ResourcePreloader()] on a document without preload links. *)
Definition constructor : Page :=
  {| preloadedResources := []; preloadQueue := []; isProcessing := false;
     head := [] |}.

(** [set.has(x)]. *)
Definition has (set : list string) (x : string) : bool :=
  existsb (String.eqb x) set.

(** [document.head.appendChild(link)] followed by
    [this.preloadedResources.add(src)]. *)
Definition append_and_record (link : Link) (src : string) (w : Page) : Page :=
  {| preloadedResources :=
       if has (preloadedResources w) src then preloadedResources w
       else preloadedResources w ++ [src];
     preloadQueue := preloadQueue w;
     isProcessing := isProcessing w;
     head := head w ++ [link] |}.

Definition preloadImage (src priority : string) (w : Page) : Page :=
  if has (preloadedResources w) src then w
  else
    append_and_record
      {| rel := "preload"; as_ := Some "image"; href := src;
         type_ := None; crossOrigin := None;
         fetchPriority :=
           if String.eqb priority "high" then Some "high" else None |}
      src w.

Definition preloadFont (href0 : string) (w : Page) : Page :=
  if has (preloadedResources w) href0 then w
  else
    append_and_record
      {| rel := "preload"; as_ := Some "font"; href := href0;
         type_ := Some "font/woff2"; crossOrigin := Some "anonymous";
         fetchPriority := None |}
      href0 w.

Definition preloadModule (href0 : string) (w : Page) : Page :=
  if has (preloadedResources w) href0 then w
  else
    append_and_record
      {| rel := "modulepreload"; as_ := None; href := href0;
         type_ := None; crossOrigin := None; fetchPriority := None |}
      href0 w.

Definition preloadCSS (href0 : string) (w : Page) : Page :=
  if has (preloadedResources w) href0 then w
  else
    append_and_record
      {| rel := "preload"; as_ := Some "style"; href := href0;
         type_ := None; crossOrigin := None; fetchPriority := None |}
      href0 w.

Definition preloadCriticalResources (w : Page) : Page :=
  let criticalImages := ["/images/logo.png"; "/images/hero-banner.jpg"] in
  let w1 := fold_left (fun acc src => preloadImage src "high" acc)
                      criticalImages w in
  preloadFont "/fonts/inter-medium.woff2"
    (preloadFont "/fonts/inter-regular.woff2" w1).

(** An entry of a [resources] array. *)
Record Resource := mkResource { type : string; src : string }.

(** The body every [resources.forEach] of the class runs: images with the
    low priority, modules, and nothing for any other type. *)
Definition preloadEach (resources : list Resource) (w : Page) : Page :=
  fold_left
    (fun acc resource =>
       if String.eqb (type resource) "image" then
         preloadImage (src resource) "low" acc
       else if String.eqb (type resource) "module" then
         preloadModule (src resource) acc
       else acc)
    resources w.

(** [navigator.connection], when the browser has one. *)
Record Connection := mkConnection { effectiveType : option string }.

(** What [adaptivePreload] does at once, and what it leaves to a timer:
    the delay in milliseconds and the callback. *)
Definition adaptivePreload (connection : option Connection)
  (resources : list Resource) (w : Page)
  : Page * option (Z * (Page -> Page)) :=
  match connection with
  | Some c =>
      match effectiveType c with
      | Some t =>
          if String.eqb t "4g" || String.eqb t "3g"
          then (preloadEach resources w, None)
          else (w, None)
      | None => (w, None)
      end
  | None => (w, Some (3000, preloadEach resources))
  end.

Definition cleanup (w : Page) : Page :=
  {| preloadedResources := []; preloadQueue := [];
     isProcessing := isProcessing w; head := head w |}.

(** One call of a method of the preloader that preloads [u]. *)
Inductive preloads (u : string) : (Page -> Page) -> Prop :=
| preloads_image priority : preloads u (preloadImage u priority)
| preloads_font : preloads u (preloadFont u)
| preloads_module : preloads u (preloadModule u)
| preloads_css : preloads u (preloadCSS u).

(** The pages the preloading methods lead to from a fresh preloader. *)
Inductive reachable : Page -> Prop :=
| reach_new : reachable constructor
| reach_preload u f w : preloads u f -> reachable w -> reachable (f w)
| reach_critical w : reachable w -> reachable (preloadCriticalResources w)
| reach_each resources w : reachable w -> reachable (preloadEach resources w).

(** The links appended carry exactly the recorded URLs, in order, and no
    URL is recorded twice. *)
Definition consistent (w : Page) : Prop :=
  map href (head w) = preloadedResources w
  /\ NoDup (preloadedResources w).

(** A page on which [/images/logo.png] was preloaded as an image. *)
Definition with_logo : Page := preloadImage "/images/logo.png" "high" constructor.

End ResourcePreloader.


(** * [route/Router.js] *)

Module Router.

(** An entry of the route table.  The component is named by the cache key
    of its lazy wrapper. *)
Record Route := mkRoute {
  component : string;
  requiresAuth : bool;
  defaultChild : option string;
  parent : option string
}.

(** [this.routes] after [setupRoutes], in insertion order. *)
Definition routes : list (string * Route) :=
  [ ("/", mkRoute "HomePage" false None None);
    ("/katalog", mkRoute "KatalogPage" false None None);
    ("/wishlist", mkRoute "WishListPage" false None None);
    ("/brands", mkRoute "UserBrandsPage" false None None);
    ("/detail", mkRoute "DetailPage" false None None);
    ("/search", mkRoute "UserSearchResult" false None None);
    ("/login", mkRoute "LoginPage" false None None);
    ("/admin", mkRoute "AdminDashboard" true (Some "/admin/dashboard") None);
    ("/admin/dashboard", mkRoute "DashboardPage" true None (Some "/admin"));
    ("/admin/products", mkRoute "ProductsPage" true None (Some "/admin"));
    ("/admin/brands", mkRoute "BrandsPage" true None (Some "/admin"));
    ("/admin/categories", mkRoute "CategoriesPage" true None (Some "/admin"));
    ("/admin/banners", mkRoute "BannersPage" true None (Some "/admin"));
    ("/admin/admins",
     mkRoute "AdminManagementPage" true None (Some "/admin")) ].

(** [s.startsWith(p)]. *)
Definition startsWith (s p : string) : bool := String.prefix p s.

(** Truthiness of an optional string: set and not empty. *)
Definition truthy (o : option string) : bool :=
  match o with
  | Some s => negb (String.eqb s EmptyString)
  | None => false
  end.

(** [this.routes.get(path)], with the key of the entry found: the route
    objects are told apart by the entry they sit in. *)
Fixpoint routes_get (table : list (string * Route)) (path : string)
  : option (string * Route) :=
  match table with
  | [] => None
  | (k, r) :: table' =>
      if String.eqb k path then Some (k, r) else routes_get table' path
  end.

(** The [for ... of this.routes] loop: the first entry whose path is a
    prefix of [path] and that has a default child. *)
Fixpoint parent_route (table : list (string * Route)) (path : string)
  : option (string * Route) :=
  match table with
  | [] => None
  | (routePath, routeConfig) :: table' =>
      if startsWith path routePath && truthy (defaultChild routeConfig)
      then Some (routePath, routeConfig)
      else parent_route table' path
  end.

(** The route [handleRoute] settles on: the exact entry, else the parent
    found by the loop. *)
Definition find_route (path : string) : option (string * Route) :=
  match routes_get routes path with
  | Some found => Some found
  | None => parent_route routes path
  end.

(** What a call of [handleRoute] ends in. *)
Inductive Ending :=
| Rendered (key : string) (route : Route) (path : string)
| Unfinished.

(** [handleRoute] at [window.location.pathname = path], with the answer of
    [authService.checkAuth()].  A [navigate(target, true)] replaces the
    history entry, recorded in the list, and runs [handleRoute] again at
    the target; [fuel] bounds these re-entries. *)
Fixpoint handleRoute (fuel : nat) (isAuthenticated : bool) (path : string)
  : list string * Ending :=
  match fuel with
  | O => ([], Unfinished)
  | S fuel' =>
      let navigate target :=
        let (replaced, ending) := handleRoute fuel' isAuthenticated target in
        (target :: replaced, ending) in
      match find_route path with
      | None => navigate "/"
      | Some (key, route) =>
          if requiresAuth route && negb isAuthenticated then
            navigate "/login"
          else if negb (requiresAuth route) && isAuthenticated
                  && String.eqb path "/login" then
            navigate "/admin/dashboard"
          else
            match defaultChild route with
            | Some child =>
                if truthy (Some child) && String.eqb path key
                then navigate child
                else ([], Rendered key route path)
            | None => ([], Rendered key route path)
            end
      end
  end.


(** [hash.substring(1)]. *)
Definition substring1 (s : string) : string :=
  match s with
  | EmptyString => EmptyString
  | String _ rest => rest
  end.

(** [s.split(sep)] for a separator that is not empty, scanning from the
    left: [skip] counts the characters of a separator just found that are
    still to be passed over, [piece] is the piece being collected. *)
Fixpoint split_from (sep s : string) (skip : nat) (piece : string)
  : list string :=
  match s with
  | EmptyString => [piece]
  | String c rest =>
      match skip with
      | S k => split_from sep rest k piece
      | O =>
          if String.prefix sep s
          then piece :: split_from sep rest (String.length sep - 1) EmptyString
          else split_from sep rest O (piece ++ String c EmptyString)
      end
  end.

Definition split (s sep : string) : list string :=
  split_from sep s O EmptyString.

(** What [handleHashRoute] ends in: an assignment to
    [window.location.href], or the call of [handleRoute]. *)
Inductive HashEnding :=
| Redirect (href : string)
| Routed.

Definition handleHashRoute (hash : string) : HashEnding :=
  if startsWith hash "#/" then
    let hashPath := substring1 hash in
    let detail_query :=
      if includes hashPath "/detail?" then
        match split hashPath "?" with
        | path :: query :: _ =>
            if String.eqb path "/detail" && truthy (Some query)
            then Some (Redirect ("/detail?" ++ query))
            else None
        | _ => None
        end
      else None in
    match detail_query with
    | Some ending => ending
    | None =>
        let detail_id :=
          if startsWith hashPath "/detail/" then
            match split hashPath "/detail/" with
            | _ :: productId :: _ =>
                if truthy (Some productId)
                then Some (Redirect ("/detail?id=" ++ productId))
                else None
            | _ => None
            end
          else None in
        match detail_id with
        | Some ending => ending
        | None => Redirect hashPath
        end
    end
  else Routed.

End Router.


(** * [lib/LazyLoader.js] *)

Module LazyLoader.

(** A loaded component, named; an imported module with its default export,
    [None] when it has none (or a falsy one), and the module object
    itself. *)
Definition Component := string.

Record Module_ := mkModule {
  default : option Component;
  itself : Component
}.

(** The two maps of the loader, in insertion order, with what the loader
    did so far: the keys whose [importFn] it called and the keys whose
    failure it logged with [console.error], oldest first.  A promise is
    named by the number of the import that made it. *)
Record Loader := mkLoader {
  cache : list (string * Component);
  loadingPromises : list (string * nat);
  imported : list string;
  failures : list string
}.

Definition constructor : Loader :=
  {| cache := []; loadingPromises := []; imported := []; failures := [] |}.

Fixpoint map_get {V} (m : list (string * V)) (key : string) : option V :=
  match m with
  | [] => None
  | (k, v) :: m' => if String.eqb k key then Some v else map_get m' key
  end.

Definition map_has {V} (m : list (string * V)) (key : string) : bool :=
  match map_get m key with Some _ => true | None => false end.

(** [map.set(key, v)]: an existing key keeps its place. *)
Fixpoint map_set {V} (m : list (string * V)) (key : string) (v : V)
  : list (string * V) :=
  match m with
  | [] => [(key, v)]
  | (k, v0) :: m' =>
      if String.eqb k key then (k, v) :: m' else (k, v0) :: map_set m' key v
  end.

Definition map_delete {V} (m : list (string * V)) (key : string)
  : list (string * V) :=
  filter (fun p => negb (String.eqb (fst p) key)) m.

(** What the caller of [loadComponent] gets: the cached component, or a
    promise that is still pending. *)
Inductive Answer :=
| Ready (component : Component)
| Waiting (promise : nat).

(** [loadComponent(importFn, key)] up to its [return]: the answer and the
    loader afterwards. *)
Definition loadComponent (key : string) (l : Loader) : Answer * Loader :=
  match map_get (cache l) key with
  | Some component => (Ready component, l)
  | None =>
      match map_get (loadingPromises l) key with
      | Some promise => (Waiting promise, l)
      | None =>
          let loadingPromise := length (imported l) in
          (Waiting loadingPromise,
           {| cache := cache l;
              loadingPromises :=
                map_set (loadingPromises l) key loadingPromise;
              imported := imported l ++ [key];
              failures := failures l |})
      end
  end.

(** The [.then] callback of the import of [key]: [module.default || module]
    is cached and the promise fulfils with it. *)
Definition import_resolved (key : string) (module : Module_) (l : Loader)
  : Component * Loader :=
  let component :=
    match default module with Some d => d | None => itself module end in
  (component,
   {| cache := map_set (cache l) key component;
      loadingPromises := map_delete (loadingPromises l) key;
      imported := imported l;
      failures := failures l |}).

(** The [.catch] callback of the import of [key]: the failure is logged,
    the promise rejects again, nothing is cached. *)
Definition import_rejected (key : string) (l : Loader) : Loader :=
  {| cache := cache l;
     loadingPromises := map_delete (loadingPromises l) key;
     imported := imported l;
     failures := failures l ++ [key] |}.

(** How often [key] occurs in a log. *)
Definition times (key : string) (log : list string) : nat :=
  count_occ string_dec log key.

(** Every import of [key] is accounted for: it failed, or it is pending,
    or it filled the cache; and [key] is not at once cached and loading. *)
Definition accounted (l : Loader) (key : string) : Prop :=
  times key (imported l)
  = (times key (failures l)
     + (if map_has (loadingPromises l) key then 1 else 0)
     + (if map_has (cache l) key then 1 else 0))%nat
  /\ (map_has (cache l) key = true ->
      map_has (loadingPromises l) key = false).

(** The loaders that calls and settlements of pending imports lead to. *)
Inductive reachable : Loader -> Prop :=
| reach_new : reachable constructor
| reach_load key l : reachable l -> reachable (snd (loadComponent key l))
| reach_resolved key module l :
    reachable l -> map_has (loadingPromises l) key = true ->
    reachable (snd (import_resolved key module l))
| reach_rejected key l :
    reachable l -> map_has (loadingPromises l) key = true ->
    reachable (import_rejected key l).

(** A loader that started the import of [HomePage]. *)
Definition loading_home : Loader := snd (loadComponent "HomePage" constructor).

End LazyLoader.



(** ** Lookups across the stores *)

Lemma uncached_storage_match (s : CacheStorage) (R : Request) :
  uncached s R <-> storage_match s R = None.
Proof.
  unfold uncached. induction s as [|[n c] s IH]; simpl.
  - split; [reflexivity | intros _ ? ? []].
  - split.
    + intros H. rewrite (H n c) by (left; reflexivity).
      apply IH. intros n' c' Hin. apply (H n' c'). right; exact Hin.
    + destruct (cache_match c R) eqn:E; [discriminate|].
      intros Hs n' c' [Heq | Hin].
      * inversion Heq; subst; exact E.
      * apply (proj2 IH Hs n' c' Hin).
Qed.

(** Every store is consulted: an entry in any of them makes the lookup
    answer. *)
Lemma storage_match_any_store (s : CacheStorage) (R : Request) name c resp :
  In (name, c) s -> cache_match c R = Some resp ->
  exists served, storage_match s R = Some served.
Proof.
  intros Hin Hc. destruct (storage_match s R) eqn:E; [eauto|].
  apply uncached_storage_match in E. rewrite (E name c Hin) in Hc.
  discriminate.
Qed.

Lemma storage_get_In (s : CacheStorage) name c :
  storage_get s name = Some c -> In (name, c) s.
Proof.
  induction s as [|[n c0] s IH]; simpl; [discriminate|].
  destruct (String.eqb n name) eqn:E.
  - apply String.eqb_eq in E. intros H; inversion H; subst. left; reflexivity.
  - intros H. right. apply IH, H.
Qed.

(** The answer is the entry of the named store when no store created before
    it has one. *)
Lemma storage_match_first (s : CacheStorage) (R : Request) name c resp :
  storage_get s name = Some c -> cache_match c R = Some resp ->
  storage_match (stores_before s name) R = None ->
  storage_match s R = Some resp.
Proof.
  induction s as [|[n c0] s IH]; simpl; [discriminate|].
  destruct (String.eqb n name).
  - intros H Hc _. inversion H; subst. rewrite Hc. reflexivity.
  - simpl. destruct (cache_match c0 R); [discriminate|]. exact IH.
Qed.

(** A store that is the only one with an entry answers the lookup. *)
Lemma storage_match_only (s : CacheStorage) (R : Request) name c resp :
  storage_get s name = Some c -> cache_match c R = Some resp ->
  (forall n c', In (n, c') s -> n <> name -> cache_match c' R = None) ->
  storage_match s R = Some resp.
Proof.
  intros Hg Hc Hothers. apply (storage_match_first s R name c resp Hg Hc).
  clear Hg Hc. induction s as [|[n c0] s IH]; simpl; [reflexivity|].
  destruct (String.eqb n name) eqn:E; [reflexivity|]. simpl.
  apply String.eqb_neq in E.
  rewrite (Hothers n c0) by (try left; auto).
  apply IH. intros n' c' Hin. apply Hothers. right; exact Hin.
Qed.

(** ** The strategies, case by case *)

(** A hit of the first lookup: the entry is returned, nothing is fetched
    and nothing is written. *)
Lemma cacheFirst_hit (h : Host) (s : CacheStorage) (R : Request) served :
  storage_match s R = Some served ->
  cacheFirst h R s = mkRun (Fulfilled served) s [].
Proof.
  intros H. unfold cacheFirst, try_catch, bind, caches_match, ret. simpl.
  rewrite H. reflexivity.
Qed.

(** A miss and a failing fetch: the second lookup of the [catch] block
    misses too, and the 503 response is made. *)
Lemma cacheFirst_offline_miss (h : Host) (s : CacheStorage) (R : Request) :
  storage_match s R = None -> network h R = None ->
  cacheFirst h R s =
    mkRun (Fulfilled (new_Response "Offline" offline_status)) s
          [NetFetch R; ConsoleError "Cache first strategy failed:" NetworkError].
Proof.
  intros Hm Hn.
  unfold cacheFirst, cacheFirst_catch, try_catch, bind, caches_match, fetch,
    console_error, emit, ret. simpl.
  rewrite Hm. simpl. rewrite Hn. simpl. rewrite Hm. reflexivity.
Qed.

(** A failing fetch: [networkFirst] runs its [catch] block. *)
Lemma networkFirst_offline (h : Host) (s : CacheStorage) (R : Request) :
  network h R = None ->
  networkFirst h R s =
    mkRun (Fulfilled
             match storage_match s R with
             | Some r => r
             | None =>
                 if String.eqb (destination R) "document"
                 then new_Response offline_page offline_page_init
                 else new_Response "Offline" offline_status
             end)
          s
          [NetFetch R;
           ConsoleWarn "Network request failed, trying cache:" NetworkError].
Proof.
  intros Hn.
  unfold networkFirst, networkFirst_catch, try_catch, bind, caches_match,
    fetch, console_warn, emit, ret. simpl.
  rewrite Hn. simpl.
  destruct (storage_match s R); [reflexivity|].
  destruct (String.eqb (destination R) "document"); reflexivity.
Qed.

Lemma marker_not_cacheable (R : Request) :
  has_nocache_marker R -> isCacheableRequest R = false.
Proof.
  unfold has_nocache_marker, isCacheableRequest.
  intros [H | [H | H]]; rewrite H;
    destruct (negb (startsWith (protocol (url R)) "http")); simpl;
    try reflexivity;
    rewrite ?orb_true_r; reflexivity.
Qed.

(** A request that is not write-eligible: the fetched response is returned
    and the stores stay as they were. *)
Lemma networkFirst_online_no_write (h : Host) (s : CacheStorage) (R : Request)
  resp :
  isCacheableRequest R = false -> network h R = Some resp ->
  networkFirst h R s = mkRun (Fulfilled resp) s [NetFetch R].
Proof.
  intros Hc Hn.
  unfold networkFirst, try_catch, bind, fetch, ret. simpl.
  rewrite Hn. simpl. rewrite Hc, andb_false_r. reflexivity.
Qed.

Lemma cacheFirst_online_no_write (h : Host) (s : CacheStorage) (R : Request)
  resp :
  isCacheableRequest R = false -> storage_match s R = None ->
  network h R = Some resp ->
  cacheFirst h R s = mkRun (Fulfilled resp) s [NetFetch R].
Proof.
  intros Hc Hm Hn.
  unfold cacheFirst, try_catch, bind, caches_match, fetch, ret. simpl.
  rewrite Hm. simpl. rewrite Hn. simpl. rewrite Hc, andb_false_r. reflexivity.
Qed.

(** ** The lifecycle listeners *)

(** A chain that ends in [.catch(error => console.error(..))] never
    rejects. *)
Lemma caught_never_rejects (m : Async unit) (msg : string) (s : CacheStorage) :
  outcome (try_catch m (console_error msg) s) = Fulfilled tt.
Proof.
  unfold try_catch. destruct (m s) as [[[]|e] st ev]; reflexivity.
Qed.

Lemma install_never_rejects (h : Host) (s : CacheStorage) :
  outcome (install_listener h s) = Fulfilled tt.
Proof.
  unfold install_listener, log, DEBUG, bind at 1, ret at 1.
  cbv beta iota zeta. cbn [outcome storage events app].
  apply caught_never_rejects.
Qed.

Lemma activate_never_rejects (h : Host) (s : CacheStorage) :
  outcome (activate_listener h s) = Fulfilled tt.
Proof.
  unfold activate_listener, log, DEBUG, bind at 1, ret at 1.
  cbv beta iota zeta. cbn [outcome storage events app].
  apply caught_never_rejects.
Qed.

Lemma purge_events (h : Host) (names : list string) (s : CacheStorage) :
  events (purge h names s) = map CacheDelete names.
Proof.
  revert s. induction names as [|n names IH]; intros s; [reflexivity|].
  unfold purge in *. simpl. rewrite IH.
  unfold bind, log, caches_delete, ret. simpl.
  destruct (delete_succeeds h n); reflexivity.
Qed.

Lemma purge_rejects (h : Host) (names : list string) (s : CacheStorage) n :
  In n names -> delete_succeeds h n = false ->
  exists e, outcome (purge h names s) = Rejected e.
Proof.
  revert s. induction names as [|n0 names IH]; intros s; [intros []|].
  intros [-> | Hin] Hd; unfold purge in *; simpl.
  - unfold bind at 1, log, caches_delete, ret. simpl. rewrite Hd. simpl. eauto.
  - destruct (outcome (caches_delete h n0 s)); [|eauto].
    destruct (IH (storage (caches_delete h n0 s)) Hin Hd) as [e He].
    rewrite He. eauto.
Qed.

Lemma purge_fulfils (h : Host) (names : list string) (s : CacheStorage) :
  (forall n, In n names -> delete_succeeds h n = true) ->
  exists l, outcome (purge h names s) = Fulfilled l.
Proof.
  revert s. induction names as [|n names IH]; intros s Hall;
    [eexists; reflexivity|].
  unfold purge in *. simpl.
  match goal with
  | |- context [Promise_all ?l ?st] =>
      destruct (IH st (fun m Hm => Hall m (or_intror Hm))) as [l' Hl];
      rewrite Hl
  end.
  unfold bind, log, caches_delete, ret. simpl.
  rewrite (Hall n) by (left; reflexivity). simpl. eauto.
Qed.

(** What is left after the deletions: every store but those whose name was
    handed over and whose deletion went through. *)
Lemma purge_storage (h : Host) (names : list string) (s : CacheStorage) :
  storage (purge h names s) =
    filter (fun p => negb (existsb (String.eqb (fst p)) names
                           && delete_succeeds h (fst p))) s.
Proof.
  revert s. induction names as [|n names IH]; intros s.
  - simpl. induction s as [|p s IHs]; simpl; [reflexivity|].
    f_equal. exact IHs.
  - unfold purge in *. simpl. rewrite IH. clear IH.
    unfold bind, log, caches_delete, ret. simpl.
    destruct (delete_succeeds h n) eqn:Hd; simpl.
    + unfold storage_remove.
      induction s as [|[k c] s IHs]; simpl; [reflexivity|].
      destruct (String.eqb k n) eqn:E; simpl.
      * apply String.eqb_eq in E. subst k. rewrite Hd. simpl. exact IHs.
      * rewrite IHs. reflexivity.
    + apply filter_ext. intros [k c]. simpl.
      destruct (String.eqb k n) eqn:E; simpl; [|reflexivity].
      apply String.eqb_eq in E. subst k. rewrite Hd, !andb_false_r.
      reflexivity.
Qed.

Lemma activate_keys_fail (h : Host) (s : CacheStorage) :
  keys_succeeds h = false ->
  activate_listener h s =
    mkRun (Fulfilled tt) s
          [ConsoleError "Service Worker activation failed:" StorageError].
Proof.
  intros Hk.
  unfold activate_listener, try_catch, bind, log, caches_keys, console_error,
    emit, ret. simpl.
  rewrite Hk. reflexivity.
Qed.

(** With the names enumerated, the listener runs the deletions and then
    either claims the clients or, when a deletion rejected, logs. *)
Lemma activate_keys_ok (h : Host) (s : CacheStorage) :
  keys_succeeds h = true ->
  activate_listener h s =
    let D := purge h (filter is_stale (storage_names s)) s in
    mkRun (Fulfilled tt) (storage D)
          (events D ++
           [match outcome D with
            | Fulfilled _ => ClientsClaim
            | Rejected e =>
                ConsoleError "Service Worker activation failed:" e
            end]).
Proof.
  intros Hk.
  change (activate_listener h)
    with (log "Service Worker activating..." ;;
          (try (cacheNames <- caches_keys h ;;
                log "Cleaning up old caches..." ;;
                purge h (filter is_stale cacheNames) ;;
                log "Service Worker activated, claiming clients..." ;;
                clients_claim)
           catch (fun error =>
                    console_error "Service Worker activation failed:" error))).
  unfold try_catch, bind, log, caches_keys, console_error, clients_claim,
    emit, ret.
  cbn [DEBUG outcome storage events app]. rewrite Hk.
  cbn [outcome storage events app].
  destruct (outcome (purge h (filter is_stale (storage_names s)) s));
    cbn [outcome storage events app]; rewrite ?app_nil_r; reflexivity.
Qed.

Lemma is_stale_live (n : string) :
  is_stale n = negb (existsb (String.eqb n) live_names).
Proof.
  unfold is_stale, live_names. simpl.
  destruct (String.eqb n STATIC_CACHE), (String.eqb n DYNAMIC_CACHE),
    (String.eqb n CACHE_NAME); reflexivity.
Qed.

Lemma is_stale_not_live (n : string) :
  is_stale n = true <-> ~ In n live_names.
Proof.
  rewrite is_stale_live, negb_true_iff. split.
  - intros H Hin.
    assert (existsb (String.eqb n) live_names = true) as E.
    { apply existsb_exists. exists n. split; [exact Hin|].
      apply String.eqb_refl. }
    congruence.
  - intros H. destruct (existsb (String.eqb n) live_names) eqn:E; [|reflexivity].
    apply existsb_exists in E. destruct E as [m [Hin Hm]].
    apply String.eqb_eq in Hm. subst m. contradiction.
Qed.

Lemma storage_get_filter (keep : string -> bool) (s : CacheStorage) n :
  keep n = true ->
  storage_get (filter (fun p => keep (fst p)) s) n = storage_get s n.
Proof.
  intros Hk. induction s as [|[k c] s IH]; simpl; [reflexivity|].
  destruct (keep k) eqn:Ek; simpl.
  - destruct (String.eqb k n); [reflexivity | exact IH].
  - destruct (String.eqb k n) eqn:E; [|exact IH].
    apply String.eqb_eq in E. congruence.
Qed.

(** What the two [catch] blocks answer: the first entry found in any store,
    else the synthetic response. *)
Lemma cacheFirst_catch_outcome (s : CacheStorage) (R : Request)
  (error : Exn) :
  outcome (cacheFirst_catch R error s) =
    Fulfilled match storage_match s R with
              | Some r => r
              | None => new_Response "Offline" offline_status
              end.
Proof.
  unfold cacheFirst_catch, bind, caches_match, console_error, emit, ret.
  simpl. destruct (storage_match s R); reflexivity.
Qed.

Lemma networkFirst_catch_outcome (s : CacheStorage) (R : Request)
  (error : Exn) :
  outcome (networkFirst_catch R error s) =
    Fulfilled match storage_match s R with
              | Some r => r
              | None =>
                  if String.eqb (destination R) "document"
                  then new_Response offline_page offline_page_init
                  else new_Response "Offline" offline_status
              end.
Proof.
  unfold networkFirst_catch, bind, caches_match, console_warn, emit, ret.
  simpl. destruct (storage_match s R); [reflexivity|].
  destruct (String.eqb (destination R) "document"); reflexivity.
Qed.

Lemma no_fetch_nil : no_fetch [].
Proof. intros request []. Qed.

(** ** The [fetch] listener *)

(** The cascade of the listener, flattened: its last [else], reached by no
    request, is gone. *)
Lemma fetch_listener_cascade (h : Host) (R : Request) :
  fetch_listener h R =
    if negb (startsWith (protocol (url R)) "http") then Skip
    else if negb (String.eqb (origin (url R)) (origin (location h)))
            && negb (isApiRequest (url R))
    then Skip
    else if negb (String.eqb (method R) "GET") then Skip
    else if String.eqb (destination R) "script"
            || String.eqb (destination R) "style"
            || String.eqb (destination R) "image"
    then CacheFirst
    else NetworkFirst.
Proof.
  unfold fetch_listener, isApiRequest.
  generalize (existsb (fun pattern => regex_test pattern (pathname (url R)))
                      API_CACHE_PATTERNS).
  intros api.
  destruct (startsWith (protocol (url R)) "http"); [|reflexivity].
  destruct (String.eqb (origin (url R)) (origin (location h)));
    destruct api;
    destruct (String.eqb (method R) "GET");
    destruct (String.eqb (destination R) "script");
    destruct (String.eqb (destination R) "style");
    destruct (String.eqb (destination R) "image");
    destruct (String.eqb (destination R) "document");
    reflexivity.
Qed.

(** The two schemes the listener is written for pass its first test. *)
Lemma http_scheme_startsWith (u : URL) :
  http_scheme u -> startsWith (protocol u) "http" = true.
Proof. intros [H | H]; rewrite H; reflexivity. Qed.

(** For a request over http or https the listener decides as follows. *)
Lemma fetch_listener_http (h : Host) (R : Request) :
  http_scheme (url R) ->
  fetch_listener h R =
    if negb (String.eqb (origin (url R)) (origin (location h)))
       && negb (isApiRequest (url R))
    then Skip
    else if negb (String.eqb (method R) "GET") then Skip
    else if String.eqb (destination R) "script"
            || String.eqb (destination R) "style"
            || String.eqb (destination R) "image"
    then CacheFirst
    else NetworkFirst.
Proof.
  intros H. rewrite fetch_listener_cascade, (http_scheme_startsWith _ H).
  reflexivity.
Qed.

(** A protocol that does not begin with [http] is skipped. *)
Lemma fetch_listener_other_scheme (h : Host) (R : Request) :
  startsWith (protocol (url R)) "http" = false -> fetch_listener h R = Skip.
Proof.
  intros H. rewrite fetch_listener_cascade, H. reflexivity.
Qed.

(** A POST of the API path is left to the browser; a GET of it is answered
    network first, a script cache first. *)
Example fetch_listener_samples :
  fetch_listener offline post_products = Skip
  /\ respond offline post_products = None
  /\ fetch_listener offline products = NetworkFirst
  /\ fetch_listener offline home = NetworkFirst
  /\ fetch_listener offline app_js = CacheFirst.
Proof. repeat split. Qed.

(** The first guard is a test on the first four letters of the protocol.
    A scheme such as [httpx:], which no browser hands to the listener,
    would pass it: [receivable] leaves such requests out. *)
Example fetch_listener_httpx_not_skipped :
  ~ http_scheme (url httpx_request)
  /\ fetch_listener (serving "v1") httpx_request = CacheFirst
  /\ respond (serving "v1") httpx_request
     = Some (cacheFirst (serving "v1") httpx_request).
Proof.
  split; [|split]; try reflexivity.
  intros [H | H]; discriminate H.
Qed.

(** C1: for every request a browser hands to the listener, the listener
    skips it when the scheme is not http or https, skips it when its origin
    differs from the worker's and its path matches no API pattern, and
    skips it when the method is not GET; every other request, which is a
    GET over http or https that is same-origin or matches an API pattern,
    is answered cache first when its destination is [script], [style] or
    [image] and network first otherwise. *)
Theorem fetch_listener_classifies (h : Host) (R : Request) :
  receivable R ->
  (~ http_scheme (url R) -> fetch_listener h R = Skip)
  /\ (origin (url R) <> origin (location h) ->
      isApiRequest (url R) = false -> fetch_listener h R = Skip)
  /\ (method R <> "GET" -> fetch_listener h R = Skip)
  /\ (http_scheme (url R) ->
      origin (url R) = origin (location h) \/ isApiRequest (url R) = true ->
      method R = "GET" ->
      fetch_listener h R =
        if String.eqb (destination R) "script"
           || String.eqb (destination R) "style"
           || String.eqb (destination R) "image"
        then CacheFirst
        else NetworkFirst).
Proof.
  intros Hrec. rewrite fetch_listener_cascade.
  repeat split.
  - intros Hs. destruct (startsWith (protocol (url R)) "http") eqn:E;
      [|reflexivity].
    exfalso. apply Hs, Hrec. exact E.
  - intros Ho Ha. apply String.eqb_neq in Ho. rewrite Ho, Ha.
    destruct (negb (startsWith (protocol (url R)) "http")); reflexivity.
  - intros Hm. apply String.eqb_neq in Hm. rewrite Hm.
    destruct (negb (startsWith (protocol (url R)) "http")); [reflexivity|].
    destruct (negb (String.eqb (origin (url R)) (origin (location h)))
              && negb (isApiRequest (url R))); reflexivity.
  - intros Hs Hoa Hm. rewrite (http_scheme_startsWith _ Hs), Hm.
    change (String.eqb "GET" "GET") with true. cbn [negb].
    destruct Hoa as [Ho | Ha].
    + rewrite Ho, String.eqb_refl. reflexivity.
    + rewrite Ha. cbn [negb]. rewrite andb_false_r. reflexivity.
Qed.

Lemma fetch_listener_classifies_witness :
  receivable app_js
  /\ (~ http_scheme (url app_js) -> fetch_listener offline app_js = Skip)
  /\ (origin (url app_js) <> origin (location offline) ->
      isApiRequest (url app_js) = false -> fetch_listener offline app_js = Skip)
  /\ (method app_js <> "GET" -> fetch_listener offline app_js = Skip)
  /\ (http_scheme (url app_js) ->
      origin (url app_js) = origin (location offline)
      \/ isApiRequest (url app_js) = true ->
      method app_js = "GET" ->
      fetch_listener offline app_js =
        if String.eqb (destination app_js) "script"
           || String.eqb (destination app_js) "style"
           || String.eqb (destination app_js) "image"
        then CacheFirst
        else NetworkFirst).
Proof.
  assert (receivable app_js) as Hrec by (intros _; right; reflexivity).
  split; [exact Hrec|].
  apply (fetch_listener_classifies offline app_js Hrec).
Defined.

(** ** The cache-first strategy *)

(** C2, as worded, fails: after this worker installed over a store that an
    earlier release left under the kept name [ggcasecatalogs-v1], the
    favicon has an entry in the static store, yet [cacheFirst] answers with
    the older entry of the store created first. *)
Lemma static_entry_not_always_served :
  ~ static_entry_served offline installed_over_legacy favicon.
Proof.
  intros H.
  destruct (H [(shop_url "/" [], mkResponse 200 [] "v1/");
               (shop_url "/manifest.json" [],
                mkResponse 200 [] "v1/manifest.json");
               (shop_url "/favicon.ico" [],
                mkResponse 200 [] "v1/favicon.ico")]
              (mkResponse 200 [] "v1/favicon.ico")
              eq_refl eq_refl) as [Ho _].
  vm_compute in Ho. discriminate Ho.
Qed.

(** C2 (amended): for a request with an entry in the static store,
    [cacheFirst] issues no network fetch, leaves the stores as they are and
    returns a stored response unchanged: the entry of the first store, in
    creation order, that has one, which is the static store's entry when no
    store created before the static store has an entry for the request. *)
Theorem cacheFirst_static_entry (h : Host) (s : CacheStorage) (R : Request)
  (c : Cache) (resp : Response) :
  storage_get s STATIC_CACHE = Some c -> cache_match c R = Some resp ->
  exists served,
    storage_match s R = Some served
    /\ outcome (cacheFirst h R s) = Fulfilled served
    /\ no_fetch (events (cacheFirst h R s))
    /\ storage (cacheFirst h R s) = s
    /\ (storage_match (stores_before s STATIC_CACHE) R = None ->
        served = resp).
Proof.
  intros Hg Hc.
  destruct (storage_match_any_store s R _ _ _ (storage_get_In _ _ _ Hg) Hc)
    as [served Hs].
  exists served. rewrite (cacheFirst_hit h s R served Hs). simpl.
  repeat split; auto using no_fetch_nil.
  intros Hb. rewrite (storage_match_first s R _ _ _ Hg Hc Hb) in Hs.
  congruence.
Qed.

Lemma cacheFirst_static_entry_witness :
  exists served,
    storage_match three_stores app_js = Some served
    /\ outcome (cacheFirst offline app_js three_stores) = Fulfilled served
    /\ no_fetch (events (cacheFirst offline app_js three_stores))
    /\ storage (cacheFirst offline app_js three_stores) = three_stores
    /\ (storage_match (stores_before three_stores STATIC_CACHE) app_js = None
        -> served = cached_app_js).
Proof.
  apply (cacheFirst_static_entry offline three_stores app_js
           [(url app_js, cached_app_js)] cached_app_js); reflexivity.
Defined.

(** A script that is in no store is fetched, returned as fetched and
    written into the static store. *)
Example cacheFirst_miss_is_written :
  outcome (cacheFirst (serving "v1") app_js []) =
    Fulfilled (mkResponse 200 [] "v1/app.js")
  /\ storage (cacheFirst (serving "v1") app_js []) =
       [(STATIC_CACHE, [(url app_js, mkResponse 200 [] "v1/app.js")])]
  /\ events (cacheFirst (serving "v1") app_js []) = [NetFetch app_js].
Proof. repeat split. Qed.

(** ** The network-first strategy *)

(** C3, as worded, fails: the home page is written into the static store by
    the installation and into the dynamic store by the first successful
    navigation; once the network is down [networkFirst] answers with the
    static store's entry, not with the later entry of the dynamic store. *)
Lemma dynamic_entry_not_always_served :
  ~ dynamic_entry_served offline installed_then_visited home.
Proof.
  intros H.
  pose proof (H [(shop_url "/" [], mkResponse 200 [] "v2/")]
                (mkResponse 200 [] "v2/") eq_refl eq_refl eq_refl) as Ho.
  vm_compute in Ho. discriminate Ho.
Qed.

(** C3 (amended): for a request with an entry in the dynamic store, when
    the network fetch fails [networkFirst] returns a stored entry: that of
    the first store, in creation order, that has one, which is the dynamic
    store's entry when no store created before the dynamic store has an
    entry for the request. *)
Theorem networkFirst_fallback_entry (h : Host) (s : CacheStorage)
  (R : Request) (c : Cache) (resp : Response) :
  storage_get s DYNAMIC_CACHE = Some c -> cache_match c R = Some resp ->
  network h R = None ->
  exists served,
    storage_match s R = Some served
    /\ outcome (networkFirst h R s) = Fulfilled served
    /\ (storage_match (stores_before s DYNAMIC_CACHE) R = None ->
        served = resp).
Proof.
  intros Hg Hc Hn.
  destruct (storage_match_any_store s R _ _ _ (storage_get_In _ _ _ Hg) Hc)
    as [served Hs].
  exists served. rewrite (networkFirst_offline h s R Hn), Hs. simpl.
  repeat split.
  intros Hb. rewrite (storage_match_first s R _ _ _ Hg Hc Hb) in Hs.
  congruence.
Qed.

Lemma networkFirst_fallback_entry_witness :
  exists served,
    storage_match three_stores products = Some served
    /\ outcome (networkFirst offline products three_stores) = Fulfilled served
    /\ (storage_match (stores_before three_stores DYNAMIC_CACHE) products
        = None -> served = cached_products).
Proof.
  apply (networkFirst_fallback_entry offline three_stores products
           [(url products, cached_products)] cached_products); reflexivity.
Defined.

(** ** Installation *)




(** ** Activation *)

(** C5, as worded, fails: when the enumeration of the stores rejects, the
    listener goes straight to its [catch] and never calls
    [clients.claim()]. *)
Lemma cleanup_failure_skips_claim :
  ~ cleanup_failure_still_claims keys_failing three_stores.
Proof.
  intros H. specialize (H (or_introl eq_refl)).
  rewrite (activate_keys_fail keys_failing three_stores eq_refl) in H.
  destruct H as [F | []]. discriminate F.
Qed.

(** C5 (amended): if the enumeration or a deletion of cache stores fails
    during the activate phase, the failure is only logged and the promise
    handed to the host still fulfils, so activation is not failed; the claim
    step, which the chain places before its [catch], is skipped. *)
Theorem cleanup_failure_logged (h : Host) (s : CacheStorage) :
  cleanup_fails h s ->
  outcome (activate_listener h s) = Fulfilled tt
  /\ (exists e, In (ConsoleError "Service Worker activation failed:" e)
                   (events (activate_listener h s)))
  /\ ~ In ClientsClaim (events (activate_listener h s)).
Proof.
  intros H. split; [apply activate_never_rejects|].
  destruct (keys_succeeds h) eqn:Ek.
  - destruct H as [H | [n [Hin [Hst Hd]]]]; [congruence|].
    rewrite (activate_keys_ok h s Ek). cbn [events].
    rewrite purge_events.
    destruct (purge_rejects h (filter is_stale (storage_names s)) s n)
      as [e He]; [apply filter_In; auto | exact Hd |].
    rewrite He. split.
    + exists e. apply in_or_app. right. left. reflexivity.
    + intros F. apply in_app_or in F. destruct F as [F | [F | []]].
      * apply in_map_iff in F. destruct F as [m [F _]]. discriminate F.
      * discriminate F.
  - rewrite (activate_keys_fail h s Ek). cbn [events]. split.
    + eexists. left. reflexivity.
    + intros [F | []]. discriminate F.
Qed.

Lemma cleanup_failure_logged_witness :
  outcome (activate_listener keys_failing three_stores) = Fulfilled tt
  /\ (exists e, In (ConsoleError "Service Worker activation failed:" e)
                   (events (activate_listener keys_failing three_stores)))
  /\ ~ In ClientsClaim (events (activate_listener keys_failing three_stores)).
Proof.
  apply (cleanup_failure_logged keys_failing three_stores).
  left. reflexivity.
Defined.

(** A deletion that rejects: the stale store stays, the failure is logged
    and the clients are not claimed. *)
Example activate_delete_rejected :
  activate_listener delete_failing three_stores
    = mkRun (Fulfilled tt) three_stores
            [CacheDelete "old-v0";
             ConsoleError "Service Worker activation failed:" StorageError].
Proof. reflexivity. Qed.

(** C9: when the stores are enumerated and the deletions go through,
    activation deletes exactly the existing stores whose name is not in the
    live set static-v1, dynamic-v1, ggcasecatalogs-v1: what remains is every
    store with a live name, in order and with its contents, and the names
    handed to [caches.delete] are the existing names outside the live
    set. *)
Theorem activate_deletes_exactly_stale (h : Host) (s : CacheStorage) :
  keys_succeeds h = true -> (forall n, delete_succeeds h n = true) ->
  storage (activate_listener h s)
    = filter (fun p => existsb (String.eqb (fst p)) live_names) s
  /\ (forall n, In (CacheDelete n) (events (activate_listener h s))
                <-> In n (storage_names s) /\ ~ In n live_names)
  /\ (forall n, In n live_names ->
                storage_get (storage (activate_listener h s)) n
                = storage_get s n).
Proof.
  intros Hk Hd.
  assert (storage (activate_listener h s)
          = filter (fun p => existsb (String.eqb (fst p)) live_names) s) as Hs.
  { rewrite (activate_keys_ok h s Hk). cbn [storage].
    rewrite purge_storage. apply filter_ext_in. intros [k c] Hin.
    cbn [fst]. rewrite Hd, andb_true_r.
    destruct (existsb (String.eqb k) live_names) eqn:El.
    - destruct (existsb (String.eqb k)
                        (filter is_stale (storage_names s))) eqn:E;
        [|reflexivity].
      apply existsb_exists in E. destruct E as [m [Hm Hkm]].
      apply String.eqb_eq in Hkm. subst m.
      apply filter_In in Hm. destruct Hm as [_ Hm].
      rewrite is_stale_live, El in Hm. discriminate Hm.
    - assert (existsb (String.eqb k)
                      (filter is_stale (storage_names s)) = true) as E.
      { apply existsb_exists. exists k. split; [|apply String.eqb_refl].
        apply filter_In. split.
        - apply in_map_iff. exists (k, c). auto.
        - rewrite is_stale_live, El. reflexivity. }
      rewrite E. reflexivity. }
  split; [exact Hs|]. split.
  - intros n. rewrite (activate_keys_ok h s Hk). cbn [events].
    rewrite purge_events, <- is_stale_not_live, <- filter_In.
    destruct (purge_fulfils h (filter is_stale (storage_names s)) s
                (fun m _ => Hd m)) as [l Hl].
    rewrite Hl. split.
    + intros F. apply in_app_or in F. destruct F as [F | [F | []]].
      * apply in_map_iff in F. destruct F as [m [F Hm]].
        inversion F; subst. exact Hm.
      * discriminate F.
    + intros F. apply in_or_app. left. apply in_map. exact F.
  - intros n Hn. rewrite Hs.
    apply (storage_get_filter (fun k => existsb (String.eqb k) live_names)).
    apply existsb_exists. exists n. split; [exact Hn | apply String.eqb_refl].
Qed.

(** The stores static-v1, dynamic-v1 and old-v0: only old-v0 is deleted. *)
Lemma activate_deletes_exactly_stale_witness :
  storage_names three_stores = ["static-v1"; "dynamic-v1"; "old-v0"]
  /\ storage (activate_listener (serving "v1") three_stores)
     = filter (fun p => existsb (String.eqb (fst p)) live_names) three_stores
  /\ (forall n,
        In (CacheDelete n) (events (activate_listener (serving "v1") three_stores))
        <-> In n (storage_names three_stores) /\ ~ In n live_names)
  /\ (forall n, In n live_names ->
                storage_get (storage (activate_listener (serving "v1") three_stores)) n
                = storage_get three_stores n).
Proof.
  split; [reflexivity|].
  apply (activate_deletes_exactly_stale (serving "v1") three_stores);
    reflexivity.
Defined.

(** The same run, evaluated. *)
Example activate_three_stores :
  storage_names (storage (activate_listener (serving "v1") three_stores))
    = ["static-v1"; "dynamic-v1"]
  /\ events (activate_listener (serving "v1") three_stores)
     = [CacheDelete "old-v0"; ClientsClaim].
Proof. split; reflexivity. Qed.

(** Whatever the host does, activation leaves every store with a live name
    as it is. *)
Lemma activate_keeps_live (h : Host) (s : CacheStorage) (n : string) :
  In n live_names ->
  storage_get (storage (activate_listener h s)) n = storage_get s n.
Proof.
  intros Hn. destruct (keys_succeeds h) eqn:Ek.
  - rewrite (activate_keys_ok h s Ek). cbn [storage]. rewrite purge_storage.
    apply (storage_get_filter
             (fun k => negb (existsb (String.eqb k)
                                     (filter is_stale (storage_names s))
                             && delete_succeeds h k))).
    destruct (existsb (String.eqb n) (filter is_stale (storage_names s)))
      eqn:E; [|reflexivity].
    apply existsb_exists in E. destruct E as [m [Hm Hnm]].
    apply String.eqb_eq in Hnm. subst m.
    apply filter_In in Hm. destruct Hm as [_ Hm].
    apply is_stale_not_live in Hm. contradiction.
  - rewrite (activate_keys_fail h s Ek). reflexivity.
Qed.

(** ** Offline answers *)

Lemma offline_page_text : includes offline_page "You're Offline" = true.
Proof. vm_compute. reflexivity. Qed.

(** C6: for a request whose destination is [document], with no entry in any
    store and a failing network fetch, [networkFirst] returns a synthetic
    response with status 200, Content-Type text/html and a body that
    contains the text You're Offline. *)
Theorem networkFirst_offline_document (h : Host) (s : CacheStorage)
  (R : Request) :
  destination R = "document" -> uncached s R -> network h R = None ->
  exists resp,
    outcome (networkFirst h R s) = Fulfilled resp
    /\ status resp = 200
    /\ headers_get (headers resp) "Content-Type" = Some "text/html"
    /\ includes (body resp) "You're Offline" = true.
Proof.
  intros Hd Hu Hn. apply uncached_storage_match in Hu.
  exists (new_Response offline_page offline_page_init).
  rewrite (networkFirst_offline h s R Hn), Hu, Hd. cbn [outcome].
  split; [reflexivity|]. split; [reflexivity|]. split; [reflexivity|].
  exact offline_page_text.
Qed.

Lemma networkFirst_offline_document_witness :
  exists resp,
    outcome (networkFirst offline (GET (shop_url "/wishlist" []) "document")
                          three_stores) = Fulfilled resp
    /\ status resp = 200
    /\ headers_get (headers resp) "Content-Type" = Some "text/html"
    /\ includes (body resp) "You're Offline" = true.
Proof.
  apply (networkFirst_offline_document offline three_stores
           (GET (shop_url "/wishlist" []) "document")).
  - reflexivity.
  - apply uncached_storage_match. reflexivity.
  - reflexivity.
Defined.

(** C7: for a request whose destination is not [document], with no entry
    in any store and a failing network fetch, [cacheFirst] and
    [networkFirst] return the same synthetic response, with status 503 and
    body Offline. *)
Theorem offline_unavailable (h : Host) (s : CacheStorage) (R : Request) :
  destination R <> "document" -> uncached s R -> network h R = None ->
  exists resp,
    outcome (cacheFirst h R s) = Fulfilled resp
    /\ outcome (networkFirst h R s) = Fulfilled resp
    /\ status resp = 503
    /\ body resp = "Offline".
Proof.
  intros Hd Hu Hn. apply uncached_storage_match in Hu.
  apply String.eqb_neq in Hd.
  exists (new_Response "Offline" offline_status).
  rewrite (cacheFirst_offline_miss h s R Hu Hn).
  rewrite (networkFirst_offline h s R Hn), Hu, Hd.
  repeat split.
Qed.

Lemma offline_unavailable_witness :
  exists resp,
    outcome (cacheFirst offline (GET (shop_url "/logo.png" []) "image")
                        three_stores) = Fulfilled resp
    /\ outcome (networkFirst offline (GET (shop_url "/logo.png" []) "image")
                             three_stores) = Fulfilled resp
    /\ status resp = 503
    /\ body resp = "Offline".
Proof.
  apply (offline_unavailable offline three_stores
           (GET (shop_url "/logo.png" []) "image")).
  - discriminate.
  - apply uncached_storage_match. reflexivity.
  - reflexivity.
Defined.

(** ** The write-eligibility gate *)

(** C8: for a request whose query parameters include one of the markers
    [_t], [timestamp], [nocache], neither strategy modifies a store, and the
    response of a successful fetch is returned to the caller: by
    [networkFirst] always, by [cacheFirst] when its lookup found no entry
    and so a fetch was made. *)
Theorem nocache_marker_never_written (h : Host) (s : CacheStorage)
  (R : Request) :
  has_nocache_marker R ->
  storage (cacheFirst h R s) = s
  /\ storage (networkFirst h R s) = s
  /\ (forall resp, network h R = Some resp ->
        outcome (networkFirst h R s) = Fulfilled resp
        /\ (storage_match s R = None ->
            outcome (cacheFirst h R s) = Fulfilled resp)).
Proof.
  intros Hm. apply marker_not_cacheable in Hm.
  destruct (network h R) as [resp|] eqn:Hn.
  - rewrite (networkFirst_online_no_write h s R resp Hm Hn).
    destruct (storage_match s R) as [served|] eqn:Hs.
    + rewrite (cacheFirst_hit h s R served Hs).
      split; [reflexivity|]. split; [reflexivity|].
      intros r Hr. inversion Hr; subst. split; [reflexivity | discriminate].
    + rewrite (cacheFirst_online_no_write h s R resp Hm Hs Hn).
      split; [reflexivity|]. split; [reflexivity|].
      intros r Hr. inversion Hr; subst. split; reflexivity.
  - rewrite (networkFirst_offline h s R Hn).
    destruct (storage_match s R) as [served|] eqn:Hs.
    + rewrite (cacheFirst_hit h s R served Hs).
      split; [reflexivity|]. split; [reflexivity|]. discriminate.
    + rewrite (cacheFirst_offline_miss h s R Hs Hn).
      split; [reflexivity|]. split; [reflexivity|]. discriminate.
Qed.

Lemma nocache_marker_never_written_witness :
  has_nocache_marker fresh_products
  /\ storage (cacheFirst (serving "v2") fresh_products three_stores)
     = three_stores
  /\ storage (networkFirst (serving "v2") fresh_products three_stores)
     = three_stores
  /\ (forall resp, network (serving "v2") fresh_products = Some resp ->
        outcome (networkFirst (serving "v2") fresh_products three_stores)
        = Fulfilled resp
        /\ (storage_match three_stores fresh_products = None ->
            outcome (cacheFirst (serving "v2") fresh_products three_stores)
            = Fulfilled resp)).
Proof.
  assert (has_nocache_marker fresh_products) as Hm
    by (right; right; reflexivity).
  split; [exact Hm|].
  apply (nocache_marker_never_written (serving "v2") three_stores
           fresh_products Hm).
Defined.

(** Without a marker the same request is written: the gate, not the
    strategy, is what keeps the stores unchanged above. *)
Example products_are_written :
  storage (networkFirst (serving "v2") products three_stores) <> three_stores.
Proof. vm_compute. discriminate. Qed.

(** ** Lookups are not tied to a strategy's own store *)

(** C10: the lookups of both strategies, the first lookup of [cacheFirst]
    and the lookups of the two [catch] blocks, search every named store.
    With an entry for the request in the store called [name], whichever it
    is, [cacheFirst] returns a stored entry without a network fetch, both
    [catch] blocks return it, and so does [networkFirst] when its fetch
    fails; the entry returned is the one of [name] when no other store has
    one.  So an entry held only by the dynamic store is served by
    [cacheFirst], and one held only by the static store by the offline
    fallback of [networkFirst]. *)
Theorem lookups_span_all_stores (h : Host) (s : CacheStorage) (R : Request)
  (name : string) (c : Cache) (resp : Response) :
  storage_get s name = Some c -> cache_match c R = Some resp ->
  exists served,
    storage_match s R = Some served
    /\ outcome (cacheFirst h R s) = Fulfilled served
    /\ no_fetch (events (cacheFirst h R s))
    /\ (forall error, outcome (cacheFirst_catch R error s) = Fulfilled served)
    /\ (forall error, outcome (networkFirst_catch R error s) = Fulfilled served)
    /\ (network h R = None ->
        outcome (networkFirst h R s) = Fulfilled served)
    /\ ((forall n c', In (n, c') s -> n <> name -> cache_match c' R = None) ->
        served = resp).
Proof.
  intros Hg Hc.
  destruct (storage_match_any_store s R _ _ _ (storage_get_In _ _ _ Hg) Hc)
    as [served Hs].
  exists served. split; [exact Hs|].
  rewrite (cacheFirst_hit h s R served Hs). cbn [outcome events].
  split; [reflexivity|]. split; [apply no_fetch_nil|].
  split; [intros error; rewrite cacheFirst_catch_outcome, Hs; reflexivity|].
  split; [intros error; rewrite networkFirst_catch_outcome, Hs; reflexivity|].
  split.
  - intros Hn. rewrite (networkFirst_offline h s R Hn), Hs. reflexivity.
  - intros Ho. rewrite (storage_match_only s R _ _ _ Hg Hc Ho) in Hs.
    congruence.
Qed.

(** The entry of [app_js] sits in the dynamic store only. *)
Lemma lookups_span_all_stores_witness :
  exists served,
    storage_match only_dynamic app_js = Some served
    /\ outcome (cacheFirst offline app_js only_dynamic) = Fulfilled served
    /\ no_fetch (events (cacheFirst offline app_js only_dynamic))
    /\ (forall error,
          outcome (cacheFirst_catch app_js error only_dynamic)
          = Fulfilled served)
    /\ (forall error,
          outcome (networkFirst_catch app_js error only_dynamic)
          = Fulfilled served)
    /\ (network offline app_js = None ->
        outcome (networkFirst offline app_js only_dynamic) = Fulfilled served)
    /\ ((forall n c', In (n, c') only_dynamic -> n <> DYNAMIC_CACHE ->
                      cache_match c' app_js = None) ->
        served = cached_app_js).
Proof.
  apply (lookups_span_all_stores offline only_dynamic app_js DYNAMIC_CACHE
           [(url app_js, cached_app_js)] cached_app_js); reflexivity.
Defined.

(** The two particular cases, evaluated. *)
Example cacheFirst_serves_dynamic_entry :
  cacheFirst offline app_js only_dynamic
    = mkRun (Fulfilled cached_app_js) only_dynamic [].
Proof. reflexivity. Qed.

Example networkFirst_serves_static_entry :
  outcome (networkFirst offline products only_static)
    = Fulfilled cached_products.
Proof. reflexivity. Qed.

(** * Beyond the lookups: what the script writes, and when *)

(** ** Keys and stores *)

Lemma params_eqb_eq (p q : list (string * string)) :
  params_eqb p q = true <-> p = q.
Proof.
  revert q. induction p as [|[k v] p IH]; intros [|[k' v'] q]; simpl;
    try (split; [discriminate | discriminate]); [split; reflexivity|].
  rewrite !andb_true_iff, !String.eqb_eq, IH. split.
  - intros [[-> ->] ->]. reflexivity.
  - intros H. inversion H. auto.
Qed.

Lemma URL_eqb_eq (u v : URL) : URL_eqb u v = true <-> u = v.
Proof.
  unfold URL_eqb. rewrite !andb_true_iff, !String.eqb_eq, params_eqb_eq.
  destruct u, v; simpl. split.
  - intros [[[-> ->] ->] ->]. reflexivity.
  - intros H. inversion H. auto.
Qed.

Lemma URL_eqb_refl (u : URL) : URL_eqb u u = true.
Proof. apply URL_eqb_eq. reflexivity. Qed.

Lemma URL_eqb_neq (u v : URL) : u <> v -> URL_eqb u v = false.
Proof.
  intros H. destruct (URL_eqb u v) eqn:E; [|reflexivity].
  apply URL_eqb_eq in E. contradiction.
Qed.

(** A put followed by a lookup of the same key gives what was put. *)
Lemma cache_lookup_insert (c : Cache) (u : URL) (r : Response) :
  cache_lookup (cache_insert c u r) u = Some r.
Proof.
  induction c as [|[k r0] c IH]; simpl.
  - rewrite URL_eqb_refl. reflexivity.
  - destruct (URL_eqb k u) eqn:E; simpl; rewrite E; [reflexivity | exact IH].
Qed.

(** A put leaves the other keys as they were. *)
Lemma cache_lookup_insert_other (c : Cache) (u v : URL) (r : Response) :
  URL_eqb u v = false ->
  cache_lookup (cache_insert c u r) v = cache_lookup c v.
Proof.
  intros Huv. induction c as [|[k r0] c IH]; simpl.
  - rewrite Huv. reflexivity.
  - destruct (URL_eqb k u) eqn:E; simpl.
    + apply URL_eqb_eq in E. subst k. rewrite Huv. reflexivity.
    + rewrite IH. reflexivity.
Qed.

Lemma storage_has_get (s : CacheStorage) (name : string) :
  storage_has s name
  = match storage_get s name with Some _ => true | None => false end.
Proof.
  unfold storage_has. induction s as [|[n c] s IH]; simpl; [reflexivity|].
  destruct (String.eqb n name); [reflexivity | exact IH].
Qed.

Lemma storage_get_update_same (s : CacheStorage) (name : string)
  (f : Cache -> Cache) :
  storage_get (storage_update s name f) name
  = option_map f (storage_get s name).
Proof.
  induction s as [|[n c] s IH]; simpl; [reflexivity|].
  destruct (String.eqb n name) eqn:E; simpl; rewrite E;
    [reflexivity | exact IH].
Qed.

Lemma storage_get_update_other (s : CacheStorage) (name n : string)
  (f : Cache -> Cache) :
  n <> name ->
  storage_get (storage_update s name f) n = storage_get s n.
Proof.
  intros Hn. induction s as [|[k c] s IH]; simpl; [reflexivity|].
  destruct (String.eqb k name) eqn:E; simpl.
  - apply String.eqb_eq in E. subst k.
    destruct (String.eqb name n) eqn:E'; [|reflexivity].
    apply String.eqb_eq in E'. congruence.
  - rewrite IH. reflexivity.
Qed.

Lemma stores_before_update (s : CacheStorage) (name : string)
  (f : Cache -> Cache) :
  stores_before (storage_update s name f) name = stores_before s name.
Proof.
  induction s as [|[k c] s IH]; simpl; [reflexivity|].
  destruct (String.eqb k name) eqn:E; simpl; rewrite E; [reflexivity|].
  rewrite IH. reflexivity.
Qed.

Lemma storage_get_with_store_same (s : CacheStorage) (name : string) :
  storage_get (with_store s name) name
  = Some match storage_get s name with Some c => c | None => [] end.
Proof.
  unfold with_store. rewrite storage_has_get.
  destruct (storage_get s name) eqn:E; [exact E|].
  induction s as [|[k c] s IH]; simpl in *.
  - rewrite String.eqb_refl. reflexivity.
  - destruct (String.eqb k name); [discriminate E | apply IH, E].
Qed.

Lemma storage_get_with_store_other (s : CacheStorage) (name n : string) :
  n <> name -> storage_get (with_store s name) n = storage_get s n.
Proof.
  intros Hn. unfold with_store. destruct (storage_has s name); [reflexivity|].
  induction s as [|[k c] s IH]; simpl.
  - destruct (String.eqb name n) eqn:E; [|reflexivity].
    apply String.eqb_eq in E. congruence.
  - destruct (String.eqb k n); [reflexivity | exact IH].
Qed.

Lemma stores_before_with_store (s : CacheStorage) (name : string) :
  stores_before (with_store s name) name = stores_before s name.
Proof.
  unfold with_store. rewrite storage_has_get.
  destruct (storage_get s name) eqn:E; [reflexivity|].
  induction s as [|[k c] s IH]; simpl in *.
  - rewrite String.eqb_refl. reflexivity.
  - destruct (String.eqb k name); [discriminate E|].
    rewrite (IH E). reflexivity.
Qed.

(** A store that was just created answers no lookup. *)
Lemma storage_match_with_store (s : CacheStorage) (name : string)
  (R : Request) :
  storage_match (with_store s name) R = storage_match s R.
Proof.
  unfold with_store. destruct (storage_has s name); [reflexivity|].
  induction s as [|[k c] s IH]; simpl.
  - unfold cache_match. destruct (String.eqb (method R) "GET"); reflexivity.
  - destruct (cache_match c R); [reflexivity | exact IH].
Qed.

(** A put under one URL does not change what is served for another. *)
Lemma storage_match_update_other (s : CacheStorage) (name : string)
  (u : URL) (r : Response) (R : Request) :
  url R <> u ->
  storage_match (storage_update s name (fun c => cache_insert c u r)) R
  = storage_match s R.
Proof.
  intros Hu. induction s as [|[k c] s IH]; simpl; [reflexivity|].
  destruct (String.eqb k name); simpl.
  - unfold cache_match. destruct (String.eqb (method R) "GET");
      [|reflexivity].
    rewrite cache_lookup_insert_other; [reflexivity|].
    apply URL_eqb_neq. congruence.
  - rewrite IH. reflexivity.
Qed.

Lemma storage_match_stores_before (s : CacheStorage) (name : string)
  (R : Request) :
  storage_match s R = None -> storage_match (stores_before s name) R = None.
Proof.
  induction s as [|[k c] s IH]; simpl; [reflexivity|].
  destruct (cache_match c R) eqn:E; [discriminate|].
  intros H. destruct (String.eqb k name); [reflexivity|].
  simpl. rewrite E. apply IH, H.
Qed.

(** ** The write of a fetched response *)

(** The inner [try]/[catch], case by case: the store is created as soon as
    it is opened, also when the put then fails. *)
Lemma write_through_run (h : Host) (name : string) (R : Request)
  (resp : Response) (s : CacheStorage) :
  write_through h name R resp s =
    if open_succeeds h name then
      if put_type_error R resp then
        mkRun (Fulfilled tt) (with_store s name)
              [ConsoleWarn "Failed to cache response:" TypeError]
      else if put_succeeds h name R then
        mkRun (Fulfilled tt)
              (storage_update (with_store s name) name
                 (fun c => cache_insert c (url R) resp))
              []
      else
        mkRun (Fulfilled tt) (with_store s name)
              [ConsoleWarn "Failed to cache response:" StorageError]
    else
      mkRun (Fulfilled tt) s
            [ConsoleWarn "Failed to cache response:" StorageError].
Proof.
  unfold write_through, try_catch, bind, caches_open, cache_put,
    console_warn, emit, clone, with_store, put_type_error.
  destruct (open_succeeds h name); cbn [outcome storage events app];
    [|reflexivity].
  match goal with
  | |- context [if ?b then mkRun (Rejected TypeError) _ _ else _] =>
      destruct b
  end; cbn [outcome storage events app]; [reflexivity|].
  destruct (put_succeeds h name R); reflexivity.
Qed.

Lemma write_through_fulfils (h : Host) (name : string) (R : Request)
  (resp : Response) (s : CacheStorage) :
  outcome (write_through h name R resp s) = Fulfilled tt.
Proof.
  rewrite write_through_run.
  destruct (open_succeeds h name), (put_type_error R resp),
    (put_succeeds h name R); reflexivity.
Qed.

(** The write touches no store but the one it names. *)
Lemma write_through_frame (h : Host) (name n : string) (R : Request)
  (resp : Response) (s : CacheStorage) :
  n <> name ->
  storage_get (storage (write_through h name R resp s)) n = storage_get s n.
Proof.
  intros Hn. rewrite write_through_run.
  destruct (open_succeeds h name), (put_type_error R resp),
    (put_succeeds h name R); cbn [storage];
    rewrite ?storage_get_update_other by exact Hn;
    rewrite ?storage_get_with_store_other by exact Hn; reflexivity.
Qed.

(** The write changes no answer for another URL. *)
Lemma write_through_other_url (h : Host) (name : string) (R R' : Request)
  (resp : Response) (s : CacheStorage) :
  url R' <> url R ->
  storage_match (storage (write_through h name R resp s)) R'
  = storage_match s R'.
Proof.
  intros Hu. rewrite write_through_run.
  destruct (open_succeeds h name), (put_type_error R resp),
    (put_succeeds h name R); cbn [storage];
    rewrite ?storage_match_update_other by exact Hu;
    rewrite ?storage_match_with_store; reflexivity.
Qed.

(** A write that goes through: the named store then holds the response
    under the request, and the stores created before it are as they were. *)
Lemma write_through_stored (h : Host) (name : string) (R : Request)
  (resp : Response) (s : CacheStorage) :
  open_succeeds h name = true -> put_type_error R resp = false ->
  put_succeeds h name R = true ->
  (exists c, storage_get (storage (write_through h name R resp s)) name
             = Some c
             /\ cache_match c R = Some resp)
  /\ stores_before (storage (write_through h name R resp s)) name
     = stores_before s name.
Proof.
  intros Ho Ht Hp. rewrite write_through_run, Ho, Ht, Hp. cbn [storage].
  split.
  - rewrite storage_get_update_same, storage_get_with_store_same.
    eexists. split; [reflexivity|].
    unfold put_type_error in Ht. apply orb_false_iff in Ht.
    destruct Ht as [Ht _]. apply orb_false_iff in Ht. destruct Ht as [_ Hm].
    apply negb_false_iff in Hm.
    unfold cache_match. rewrite Hm. apply cache_lookup_insert.
  - rewrite stores_before_update, stores_before_with_store. reflexivity.
Qed.

(** What write-eligibility asks of a request. *)
Lemma isCacheableRequest_true (R : Request) :
  isCacheableRequest R = true ->
  startsWith (protocol (url R)) "http" = true
  /\ method R = "GET"
  /\ ~ has_nocache_marker R.
Proof.
  unfold isCacheableRequest, has_nocache_marker.
  destruct (startsWith (protocol (url R)) "http"); simpl; [|discriminate].
  destruct (searchParams_has (searchParams (url R)) "_t");
    [discriminate|].
  destruct (searchParams_has (searchParams (url R)) "timestamp");
    [discriminate|].
  destruct (searchParams_has (searchParams (url R)) "nocache");
    [discriminate|].
  simpl. destruct (String.eqb (method R) "GET") eqn:E; [|discriminate].
  intros _. apply String.eqb_eq in E.
  repeat split; auto. intros [H | [H | H]]; discriminate H.
Qed.

Lemma put_accepts (R : Request) (resp : Response) :
  http_scheme (url R) -> method R = "GET" -> status resp <> 206 ->
  put_type_error R resp = false.
Proof.
  intros Hs Hm Hst. unfold put_type_error. rewrite Hm.
  apply Z.eqb_neq in Hst. rewrite Hst.
  destruct Hs as [-> | ->]; reflexivity.
Qed.

(** ** The strategies with the network up *)

(** The value the strategies write with: nothing when the response is not
    [ok] or the request is not write-eligible. *)
Lemma cacheFirst_miss_online (h : Host) (s : CacheStorage) (R : Request)
  (resp : Response) :
  storage_match s R = None -> network h R = Some resp ->
  cacheFirst h R s =
    if ok resp && isCacheableRequest R then
      mkRun (Fulfilled resp)
            (storage (write_through h STATIC_CACHE R resp s))
            (NetFetch R :: events (write_through h STATIC_CACHE R resp s))
    else mkRun (Fulfilled resp) s [NetFetch R].
Proof.
  intros Hm Hn.
  change (cacheFirst h R)
    with (try (cachedResponse <- caches_match R ;;
               match cachedResponse with
               | Some r => ret r
               | None =>
                   networkResponse <- fetch h R ;;
                   (if ok networkResponse && isCacheableRequest R then
                      write_through h STATIC_CACHE R networkResponse
                    else ret tt) ;;
                   ret networkResponse
               end)
          catch (cacheFirst_catch R)).
  unfold try_catch, bind, caches_match, fetch, ret.
  cbn [outcome storage events app]. rewrite Hm.
  cbn [outcome storage events app]. rewrite Hn.
  cbn [outcome storage events app].
  destruct (ok resp && isCacheableRequest R);
    cbn [outcome storage events app]; [|reflexivity].
  rewrite write_through_fulfils. cbn [outcome storage events app].
  rewrite app_nil_r. reflexivity.
Qed.

Lemma networkFirst_online (h : Host) (s : CacheStorage) (R : Request)
  (resp : Response) :
  network h R = Some resp ->
  networkFirst h R s =
    if ok resp && isCacheableRequest R then
      mkRun (Fulfilled resp)
            (storage (write_through h DYNAMIC_CACHE R resp s))
            (NetFetch R :: events (write_through h DYNAMIC_CACHE R resp s))
    else mkRun (Fulfilled resp) s [NetFetch R].
Proof.
  intros Hn.
  change (networkFirst h R)
    with (try (networkResponse <- fetch h R ;;
               (if ok networkResponse && isCacheableRequest R then
                  write_through h DYNAMIC_CACHE R networkResponse
                else ret tt) ;;
               ret networkResponse)
          catch (networkFirst_catch R)).
  unfold try_catch, bind, fetch, ret.
  cbn [outcome storage events app]. rewrite Hn.
  cbn [outcome storage events app].
  destruct (ok resp && isCacheableRequest R);
    cbn [outcome storage events app]; [|reflexivity].
  rewrite write_through_fulfils. cbn [outcome storage events app].
  rewrite app_nil_r. reflexivity.
Qed.

(** ** The fetched response reaches the caller *)

(** X2: a response the network gave is what the caller gets, whether or
    not it is written and whether or not the write goes through:
    [networkFirst] returns it always, [cacheFirst] when its lookup found
    nothing. *)
Theorem fetched_response_is_returned (h : Host) (s : CacheStorage)
  (R : Request) (resp : Response) :
  network h R = Some resp ->
  outcome (networkFirst h R s) = Fulfilled resp
  /\ (storage_match s R = None -> outcome (cacheFirst h R s) = Fulfilled resp).
Proof.
  intros Hn. split.
  - rewrite (networkFirst_online h s R resp Hn).
    destruct (ok resp && isCacheableRequest R); reflexivity.
  - intros Hm. rewrite (cacheFirst_miss_online h s R resp Hm Hn).
    destruct (ok resp && isCacheableRequest R); reflexivity.
Qed.

Lemma fetched_response_is_returned_witness :
  outcome (networkFirst storage_down products three_stores)
    = Fulfilled (mkResponse 200 [] "/api/products")
  /\ (storage_match three_stores products = None ->
      outcome (cacheFirst storage_down products three_stores)
      = Fulfilled (mkResponse 200 [] "/api/products")).
Proof.
  apply (fetched_response_is_returned storage_down three_stores products
           (mkResponse 200 [] "/api/products")).
  reflexivity.
Defined.

(** X3: when the write of an eligible response fails, because the store
    cannot be opened or [cache.put] rejects, the failure is logged with
    [console.warn], the response is returned all the same, and no lookup
    answers differently afterwards. *)
Theorem failed_write_is_only_warned (h : Host) (s : CacheStorage)
  (R : Request) (resp : Response) :
  network h R = Some resp -> ok resp = true -> isCacheableRequest R = true ->
  (write_fails h DYNAMIC_CACHE R resp ->
   outcome (networkFirst h R s) = Fulfilled resp
   /\ (exists e, In (ConsoleWarn "Failed to cache response:" e)
                    (events (networkFirst h R s)))
   /\ (forall R', storage_match (storage (networkFirst h R s)) R'
                  = storage_match s R'))
  /\ (write_fails h STATIC_CACHE R resp -> storage_match s R = None ->
      outcome (cacheFirst h R s) = Fulfilled resp
      /\ (exists e, In (ConsoleWarn "Failed to cache response:" e)
                       (events (cacheFirst h R s)))
      /\ (forall R', storage_match (storage (cacheFirst h R s)) R'
                     = storage_match s R')).
Proof.
  intros Hn Hok Hc.
  assert (forall name, write_fails h name R resp ->
            (exists e, In (ConsoleWarn "Failed to cache response:" e)
                          (events (write_through h name R resp s)))
            /\ forall R', storage_match
                            (storage (write_through h name R resp s)) R'
                          = storage_match s R') as Hw.
  { intros name Hf. rewrite write_through_run. unfold write_fails in Hf.
    destruct (open_succeeds h name) eqn:Ho.
    - destruct (put_type_error R resp) eqn:Ht.
      + split; [eexists; left; reflexivity|].
        intros R'. apply storage_match_with_store.
      + destruct (put_succeeds h name R) eqn:Hp.
        * destruct Hf as [Hf | [Hf | Hf]]; discriminate Hf.
        * split; [eexists; left; reflexivity|].
          intros R'. apply storage_match_with_store.
    - split; [eexists; left; reflexivity | reflexivity]. }
  split.
  - intros Hf. rewrite (networkFirst_online h s R resp Hn), Hok, Hc.
    cbn [andb outcome storage events].
    destruct (Hw DYNAMIC_CACHE Hf) as [[e He] Hs].
    split; [reflexivity|]. split; [|exact Hs].
    exists e. right. exact He.
  - intros Hf Hm. rewrite (cacheFirst_miss_online h s R resp Hm Hn), Hok, Hc.
    cbn [andb outcome storage events].
    destruct (Hw STATIC_CACHE Hf) as [[e He] Hs].
    split; [reflexivity|]. split; [|exact Hs].
    exists e. right. exact He.
Qed.

Lemma failed_write_is_only_warned_witness :
  (write_fails storage_down DYNAMIC_CACHE products
               (mkResponse 200 [] "/api/products") ->
   outcome (networkFirst storage_down products []) =
     Fulfilled (mkResponse 200 [] "/api/products")
   /\ (exists e, In (ConsoleWarn "Failed to cache response:" e)
                    (events (networkFirst storage_down products [])))
   /\ (forall R', storage_match (storage (networkFirst storage_down products []))
                                R'
                  = storage_match [] R'))
  /\ (write_fails storage_down STATIC_CACHE products
                  (mkResponse 200 [] "/api/products") ->
      storage_match [] products = None ->
      outcome (cacheFirst storage_down products []) =
        Fulfilled (mkResponse 200 [] "/api/products")
      /\ (exists e, In (ConsoleWarn "Failed to cache response:" e)
                       (events (cacheFirst storage_down products [])))
      /\ (forall R', storage_match (storage (cacheFirst storage_down products []))
                                   R'
                     = storage_match [] R')).
Proof.
  apply (failed_write_is_only_warned storage_down [] products
           (mkResponse 200 [] "/api/products")); reflexivity.
Defined.

(** ** What a successful fetch leaves in the stores *)

(** X4: a response that [cacheFirst] fetched after a miss, when it is [ok]
    (and not a 206), the request is write-eligible and over http or https,
    and the static store takes it, is in the static store afterwards, and
    every later [cacheFirst] of the same request, under any host, returns
    that very response without a fetch and without a write. *)
Theorem cacheFirst_fetch_then_cached (h : Host) (s : CacheStorage)
  (R : Request) (resp : Response) :
  storage_match s R = None -> network h R = Some resp ->
  ok resp = true -> status resp <> 206 ->
  http_scheme (url R) -> isCacheableRequest R = true ->
  open_succeeds h STATIC_CACHE = true ->
  put_succeeds h STATIC_CACHE R = true ->
  outcome (cacheFirst h R s) = Fulfilled resp
  /\ (exists c, storage_get (storage (cacheFirst h R s)) STATIC_CACHE = Some c
                /\ cache_match c R = Some resp)
  /\ (forall h',
        cacheFirst h' R (storage (cacheFirst h R s))
        = mkRun (Fulfilled resp) (storage (cacheFirst h R s)) []).
Proof.
  intros Hm Hn Hok H206 Hs Hc Ho Hp.
  destruct (isCacheableRequest_true R Hc) as [_ [Hget _]].
  pose proof (put_accepts R resp Hs Hget H206) as Ht.
  rewrite (cacheFirst_miss_online h s R resp Hm Hn), Hok, Hc.
  cbn [andb outcome storage].
  destruct (write_through_stored h STATIC_CACHE R resp s Ho Ht Hp)
    as [[c [Hg Hcm]] Hb].
  split; [reflexivity|]. split; [eauto|].
  intros h'. apply cacheFirst_hit.
  apply (storage_match_first _ R STATIC_CACHE c resp Hg Hcm).
  rewrite Hb. apply storage_match_stores_before, Hm.
Qed.

Lemma cacheFirst_fetch_then_cached_witness :
  outcome (cacheFirst (serving "v1") app_js []) =
    Fulfilled (mkResponse 200 [] "v1/app.js")
  /\ (exists c,
        storage_get (storage (cacheFirst (serving "v1") app_js []))
                    STATIC_CACHE = Some c
        /\ cache_match c app_js = Some (mkResponse 200 [] "v1/app.js"))
  /\ (forall h',
        cacheFirst h' app_js (storage (cacheFirst (serving "v1") app_js []))
        = mkRun (Fulfilled (mkResponse 200 [] "v1/app.js"))
                (storage (cacheFirst (serving "v1") app_js [])) []).
Proof.
  apply (cacheFirst_fetch_then_cached (serving "v1") [] app_js
           (mkResponse 200 [] "v1/app.js"));
    try reflexivity.
  - discriminate.
  - right. reflexivity.
Defined.

(** X5: a response that [networkFirst] fetched, when it is [ok] (and not a
    206), the request is write-eligible and over http or https, and the
    dynamic store takes it, replaces whatever the dynamic store held for
    the request; once the network is down [networkFirst] answers with it,
    provided no store created before the dynamic store has an entry for
    the request. *)
Theorem networkFirst_fetch_then_cached (h : Host) (s : CacheStorage)
  (R : Request) (resp : Response) :
  network h R = Some resp ->
  ok resp = true -> status resp <> 206 ->
  http_scheme (url R) -> isCacheableRequest R = true ->
  open_succeeds h DYNAMIC_CACHE = true ->
  put_succeeds h DYNAMIC_CACHE R = true ->
  outcome (networkFirst h R s) = Fulfilled resp
  /\ (exists c, storage_get (storage (networkFirst h R s)) DYNAMIC_CACHE
                = Some c
                /\ cache_match c R = Some resp)
  /\ (storage_match (stores_before s DYNAMIC_CACHE) R = None ->
      forall h', network h' R = None ->
        outcome (networkFirst h' R (storage (networkFirst h R s)))
        = Fulfilled resp).
Proof.
  intros Hn Hok H206 Hs Hc Ho Hp.
  destruct (isCacheableRequest_true R Hc) as [_ [Hget _]].
  pose proof (put_accepts R resp Hs Hget H206) as Ht.
  rewrite (networkFirst_online h s R resp Hn), Hok, Hc.
  cbn [andb outcome storage].
  destruct (write_through_stored h DYNAMIC_CACHE R resp s Ho Ht Hp)
    as [[c [Hg Hcm]] Hb].
  split; [reflexivity|]. split; [eauto|].
  intros Hbefore h' Hn'.
  rewrite (networkFirst_offline h' _ R Hn').
  rewrite (storage_match_first _ R DYNAMIC_CACHE c resp Hg Hcm);
    [reflexivity|].
  rewrite Hb. exact Hbefore.
Qed.

Lemma networkFirst_fetch_then_cached_witness :
  outcome (networkFirst (serving "v2") products three_stores) =
    Fulfilled (mkResponse 200 [] "v2/api/products")
  /\ (exists c,
        storage_get (storage (networkFirst (serving "v2") products three_stores))
                    DYNAMIC_CACHE = Some c
        /\ cache_match c products = Some (mkResponse 200 [] "v2/api/products"))
  /\ (storage_match (stores_before three_stores DYNAMIC_CACHE) products = None
      -> forall h', network h' products = None ->
           outcome (networkFirst h' products
                      (storage (networkFirst (serving "v2") products
                                             three_stores)))
           = Fulfilled (mkResponse 200 [] "v2/api/products")).
Proof.
  apply (networkFirst_fetch_then_cached (serving "v2") three_stores products
           (mkResponse 200 [] "v2/api/products"));
    try reflexivity.
  - discriminate.
  - right. reflexivity.
Defined.

(** ** What the strategies leave alone *)

(** X6: [cacheFirst] creates and writes no store but static-v1, and
    [networkFirst] none but dynamic-v1: every other store is, after a run,
    what it was before, whatever the host does. *)
Theorem strategies_touch_only_own_store (h : Host) (s : CacheStorage)
  (R : Request) (n : string) :
  (n <> STATIC_CACHE ->
   storage_get (storage (cacheFirst h R s)) n = storage_get s n)
  /\ (n <> DYNAMIC_CACHE ->
      storage_get (storage (networkFirst h R s)) n = storage_get s n).
Proof.
  split; intros Hn.
  - destruct (storage_match s R) as [served|] eqn:Hm.
    + rewrite (cacheFirst_hit h s R served Hm). reflexivity.
    + destruct (network h R) as [resp|] eqn:Hnet.
      * rewrite (cacheFirst_miss_online h s R resp Hm Hnet).
        destruct (ok resp && isCacheableRequest R); [|reflexivity].
        apply write_through_frame, Hn.
      * rewrite (cacheFirst_offline_miss h s R Hm Hnet). reflexivity.
  - destruct (network h R) as [resp|] eqn:Hnet.
    + rewrite (networkFirst_online h s R resp Hnet).
      destruct (ok resp && isCacheableRequest R); [|reflexivity].
      apply write_through_frame, Hn.
    + rewrite (networkFirst_offline h s R Hnet). reflexivity.
Qed.

Lemma strategies_touch_only_own_store_witness :
  storage_get (storage (cacheFirst (serving "v2") favicon three_stores))
              "old-v0"
  = storage_get three_stores "old-v0"
  /\ storage_get (storage (networkFirst (serving "v2") favicon three_stores))
                 "old-v0"
     = storage_get three_stores "old-v0".
Proof.
  destruct (strategies_touch_only_own_store (serving "v2") three_stores
              favicon "old-v0") as [H1 H2].
  split; [apply H1 | apply H2]; discriminate.
Defined.

(** X7: handling one request never changes what the stores answer for a
    request with another URL. *)
Theorem other_urls_served_as_before (h : Host) (s : CacheStorage)
  (R R' : Request) :
  url R' <> url R ->
  storage_match (storage (cacheFirst h R s)) R' = storage_match s R'
  /\ storage_match (storage (networkFirst h R s)) R' = storage_match s R'.
Proof.
  intros Hu. split.
  - destruct (storage_match s R) as [served|] eqn:Hm.
    + rewrite (cacheFirst_hit h s R served Hm). reflexivity.
    + destruct (network h R) as [resp|] eqn:Hnet.
      * rewrite (cacheFirst_miss_online h s R resp Hm Hnet).
        destruct (ok resp && isCacheableRequest R); [|reflexivity].
        apply write_through_other_url, Hu.
      * rewrite (cacheFirst_offline_miss h s R Hm Hnet). reflexivity.
  - destruct (network h R) as [resp|] eqn:Hnet.
    + rewrite (networkFirst_online h s R resp Hnet).
      destruct (ok resp && isCacheableRequest R); [|reflexivity].
      apply write_through_other_url, Hu.
    + rewrite (networkFirst_offline h s R Hnet). reflexivity.
Qed.

Lemma other_urls_served_as_before_witness :
  storage_match (storage (cacheFirst (serving "v2") favicon three_stores))
                products
  = storage_match three_stores products
  /\ storage_match (storage (networkFirst (serving "v2") favicon three_stores))
                   products
     = storage_match three_stores products.
Proof.
  apply (other_urls_served_as_before (serving "v2") three_stores favicon
           products).
  discriminate.
Defined.

(** X8: no store is created or written unless the fetch gave an [ok]
    response to a write-eligible request: a response with a status outside
    200-299, or one to a request that is not a GET, is handed to the caller
    and the storage stays exactly as it was. *)
Theorem unwritten_unless_ok_and_eligible (h : Host) (s : CacheStorage)
  (R : Request) :
  (forall resp, network h R = Some resp ->
                ok resp && isCacheableRequest R = false) ->
  storage (cacheFirst h R s) = s /\ storage (networkFirst h R s) = s.
Proof.
  intros Hg. split.
  - destruct (storage_match s R) as [served|] eqn:Hm.
    + rewrite (cacheFirst_hit h s R served Hm). reflexivity.
    + destruct (network h R) as [resp|] eqn:Hnet.
      * rewrite (cacheFirst_miss_online h s R resp Hm Hnet),
          (Hg resp eq_refl). reflexivity.
      * rewrite (cacheFirst_offline_miss h s R Hm Hnet). reflexivity.
  - destruct (network h R) as [resp|] eqn:Hnet.
    + rewrite (networkFirst_online h s R resp Hnet), (Hg resp eq_refl).
      reflexivity.
    + rewrite (networkFirst_offline h s R Hnet). reflexivity.
Qed.

Lemma unwritten_unless_ok_and_eligible_witness :
  storage (cacheFirst not_found favicon []) = []
  /\ storage (networkFirst not_found favicon []) = [].
Proof.
  apply (unwritten_unless_ok_and_eligible not_found [] favicon).
  intros resp H. inversion H. reflexivity.
Defined.

(** X9: for a request the [fetch] listener answers, write-eligibility comes
    down to the query string: the response may be written exactly when the
    URL carries none of the markers [_t], [timestamp], [nocache]. *)
Theorem answered_request_eligibility (h : Host) (R : Request) :
  fetch_listener h R <> Skip ->
  (isCacheableRequest R = true <-> ~ has_nocache_marker R).
Proof.
  intros Hl. split.
  - intros Hc. apply (isCacheableRequest_true R Hc).
  - intros Hm. rewrite fetch_listener_cascade in Hl.
    unfold isCacheableRequest, has_nocache_marker in *.
    destruct (startsWith (protocol (url R)) "http");
      [|exfalso; apply Hl; reflexivity].
    cbn [negb] in *.
    destruct (negb (String.eqb (origin (url R)) (origin (location h)))
              && negb (isApiRequest (url R)));
      [exfalso; apply Hl; reflexivity|].
    destruct (String.eqb (method R) "GET");
      [|exfalso; apply Hl; reflexivity].
    destruct (searchParams_has (searchParams (url R)) "_t");
      [exfalso; apply Hm; left; reflexivity|].
    destruct (searchParams_has (searchParams (url R)) "timestamp");
      [exfalso; apply Hm; right; left; reflexivity|].
    destruct (searchParams_has (searchParams (url R)) "nocache");
      [exfalso; apply Hm; right; right; reflexivity|].
    reflexivity.
Qed.

Lemma answered_request_eligibility_witness :
  isCacheableRequest fresh_products = true
  <-> ~ has_nocache_marker fresh_products.
Proof.
  apply (answered_request_eligibility offline fresh_products).
  discriminate.
Defined.


(** ** Installation that goes through *)

Lemma run_eta {A} (r : Run A) : mkRun (outcome r) (storage r) (events r) = r.
Proof. destruct r. reflexivity. Qed.

Lemma bind_ret {A B} (a : A) (k : A -> Async B) (s : CacheStorage) :
  bind (ret a) k s = k a s.
Proof. unfold bind, ret. cbn [outcome storage events app]. apply run_eta. Qed.

Lemma bind_fulfilled {A B} (m : Async A) (k : A -> Async B)
  (s s1 : CacheStorage) (a : A) (ev : list Event) :
  m s = mkRun (Fulfilled a) s1 ev ->
  bind m k s
  = mkRun (outcome (k a s1)) (storage (k a s1)) (ev ++ events (k a s1)).
Proof. intros H. unfold bind. rewrite H. reflexivity. Qed.

Lemma try_catch_fulfilled {A} (m : Async A) (handler : Exn -> Async A)
  (s s1 : CacheStorage) (a : A) (ev : list Event) :
  m s = mkRun (Fulfilled a) s1 ev ->
  try_catch m handler s = mkRun (Fulfilled a) s1 ev.
Proof. intros H. unfold try_catch. rewrite H. reflexivity. Qed.

Lemma cache_put_run (h : Host) (name : string) (R : Request) (r : Response)
  (s : CacheStorage) :
  cache_put h name R r s =
    if put_type_error R r then mkRun (Rejected TypeError) s []
    else if put_succeeds h name R then
      mkRun (Fulfilled tt)
            (storage_update s name (fun c => cache_insert c (url R) r)) []
    else mkRun (Rejected StorageError) s [].
Proof. reflexivity. Qed.

Lemma cache_put_accepted (h : Host) (name : string) (R : Request)
  (r : Response) (s : CacheStorage) :
  put_type_error R r = false -> put_succeeds h name R = true ->
  cache_put h name R r s
  = mkRun (Fulfilled tt)
          (storage_update s name (fun c => cache_insert c (url R) r)) [].
Proof. intros Ht Hp. rewrite cache_put_run, Ht, Hp. reflexivity. Qed.

Lemma manifest_request_accepted (h : Host) (p : string) (r : Response) :
  http_scheme (location h) -> status r <> 206 ->
  put_type_error (request_of_path h p) r = false.
Proof.
  intros Hs H206. apply put_accepts; [|reflexivity | exact H206].
  exact Hs.
Qed.

Lemma manifest_fetched (h : Host) (s : CacheStorage) (r1 r2 r3 : Response) :
  network h (request_of_path h "/") = Some r1 ->
  network h (request_of_path h "/manifest.json") = Some r2 ->
  network h (request_of_path h "/favicon.ico") = Some r3 ->
  Promise_all (map (fetch h) (map (request_of_path h) STATIC_ASSETS)) s
  = mkRun (Fulfilled [r1; r2; r3]) s
          [NetFetch (request_of_path h "/");
           NetFetch (request_of_path h "/manifest.json");
           NetFetch (request_of_path h "/favicon.ico")].
Proof.
  intros N1 N2 N3. unfold STATIC_ASSETS. cbn [map Promise_all].
  unfold fetch, ret. rewrite N1, N2, N3. reflexivity.
Qed.

(** [cache.addAll] of the manifest when the three fetches and the three
    writes succeed. *)
Lemma manifest_added (h : Host) (s : CacheStorage) (r1 r2 r3 : Response) :
  http_scheme (location h) ->
  asset_served h "/" r1 -> asset_served h "/manifest.json" r2 ->
  asset_served h "/favicon.ico" r3 ->
  cache_addAll h STATIC_CACHE STATIC_ASSETS s =
    mkRun (Fulfilled tt)
      (storage_update
         (storage_update
            (storage_update s STATIC_CACHE
               (fun c => cache_insert c (url (request_of_path h "/")) r1))
            STATIC_CACHE
            (fun c => cache_insert c
                        (url (request_of_path h "/manifest.json")) r2))
         STATIC_CACHE
         (fun c => cache_insert c (url (request_of_path h "/favicon.ico")) r3))
      [NetFetch (request_of_path h "/");
       NetFetch (request_of_path h "/manifest.json");
       NetFetch (request_of_path h "/favicon.ico")].
Proof.
  intros Hs [N1 [K1 [T1 P1]]] [N2 [K2 [T2 P2]]] [N3 [K3 [T3 P3]]].
  unfold cache_addAll.
  rewrite (bind_fulfilled _ _ _ _ _ _ (manifest_fetched h s r1 r2 r3 N1 N2 N3)).
  cbn [forallb]. rewrite K1, K2, K3. cbn [andb].
  unfold STATIC_ASSETS. cbn [combine map fst snd sequence_].
  unfold atomically.
  rewrite (bind_fulfilled _ _ _ _ _ _
             (cache_put_accepted h STATIC_CACHE _ r1 s
                (manifest_request_accepted h "/" r1 Hs T1) P1)).
  rewrite (bind_fulfilled _ _ _ _ _ _
             (cache_put_accepted h STATIC_CACHE _ r2 _
                (manifest_request_accepted h "/manifest.json" r2 Hs T2) P2)).
  rewrite (bind_fulfilled _ _ _ _ _ _
             (cache_put_accepted h STATIC_CACHE _ r3 _
                (manifest_request_accepted h "/favicon.ico" r3 Hs T3) P3)).
  unfold ret. cbn [outcome storage events app]. reflexivity.
Qed.

Lemma caches_open_run (h : Host) (name : string) (s : CacheStorage) :
  open_succeeds h name = true ->
  caches_open h name s = mkRun (Fulfilled name) (with_store s name) [].
Proof. intros Ho. unfold caches_open, with_store. rewrite Ho. reflexivity. Qed.

(** The run of an installation whose three fetches and writes succeed. *)
Lemma install_run_ok (h : Host) (s : CacheStorage) (r1 r2 r3 : Response) :
  http_scheme (location h) -> open_succeeds h STATIC_CACHE = true ->
  asset_served h "/" r1 -> asset_served h "/manifest.json" r2 ->
  asset_served h "/favicon.ico" r3 ->
  install_listener h s =
    mkRun (Fulfilled tt)
      (storage_update
         (storage_update
            (storage_update (with_store s STATIC_CACHE) STATIC_CACHE
               (fun c => cache_insert c (url (request_of_path h "/")) r1))
            STATIC_CACHE
            (fun c => cache_insert c
                        (url (request_of_path h "/manifest.json")) r2))
         STATIC_CACHE
         (fun c => cache_insert c (url (request_of_path h "/favicon.ico")) r3))
      [NetFetch (request_of_path h "/");
       NetFetch (request_of_path h "/manifest.json");
       NetFetch (request_of_path h "/favicon.ico");
       SkipWaiting].
Proof.
  intros Hs Ho A1 A2 A3.
  unfold install_listener, log, DEBUG. rewrite bind_ret.
  apply try_catch_fulfilled.
  rewrite (bind_fulfilled _ _ _ _ _ _ (caches_open_run h STATIC_CACHE s Ho)).
  rewrite bind_ret.
  rewrite (bind_fulfilled _ _ _ _ _ _
             (manifest_added h (with_store s STATIC_CACHE) r1 r2 r3
                Hs A1 A2 A3)).
  rewrite bind_ret. reflexivity.
Qed.

Lemma manifest_urls_differ (h : Host) (p q : string) :
  p <> q -> URL_eqb (url (request_of_path h p)) (url (request_of_path h q))
            = false.
Proof.
  intros Hpq. apply URL_eqb_neq. intros H. inversion H. contradiction.
Qed.

(** After such an installation the static store answers for each manifest
    path with the response fetched for it, and the stores created before
    the static store are as they were. *)
Lemma install_static_store (h : Host) (s : CacheStorage)
  (r1 r2 r3 : Response) :
  http_scheme (location h) -> open_succeeds h STATIC_CACHE = true ->
  asset_served h "/" r1 -> asset_served h "/manifest.json" r2 ->
  asset_served h "/favicon.ico" r3 ->
  (exists c,
     storage_get (storage (install_listener h s)) STATIC_CACHE = Some c
     /\ cache_match c (request_of_path h "/") = Some r1
     /\ cache_match c (request_of_path h "/manifest.json") = Some r2
     /\ cache_match c (request_of_path h "/favicon.ico") = Some r3)
  /\ stores_before (storage (install_listener h s)) STATIC_CACHE
     = stores_before s STATIC_CACHE.
Proof.
  intros Hs Ho A1 A2 A3.
  rewrite (install_run_ok h s r1 r2 r3 Hs Ho A1 A2 A3). cbn [storage].
  split.
  - rewrite !storage_get_update_same, storage_get_with_store_same.
    cbn [option_map]. eexists. split; [reflexivity|].
    unfold cache_match. cbn [method request_of_path].
    rewrite String.eqb_refl.
    repeat split.
    + rewrite !cache_lookup_insert_other
        by (apply manifest_urls_differ; discriminate).
      apply cache_lookup_insert.
    + rewrite cache_lookup_insert_other
        by (apply manifest_urls_differ; discriminate).
      apply cache_lookup_insert.
    + apply cache_lookup_insert.
  - rewrite !stores_before_update. apply stores_before_with_store.
Qed.

(** X10: when the worker is served over http or https, the static store
    opens, and each of the three manifest paths is fetched with an [ok]
    response (not a 206) that the store takes, the installation fulfils,
    fetches the three paths in order, calls [skipWaiting] last, logs no
    failure, and leaves in the static store, for each path, the response
    fetched for it, whatever the store held before. *)
Theorem install_precaches_manifest (h : Host) (s : CacheStorage)
  (r1 r2 r3 : Response) :
  http_scheme (location h) -> open_succeeds h STATIC_CACHE = true ->
  asset_served h "/" r1 -> asset_served h "/manifest.json" r2 ->
  asset_served h "/favicon.ico" r3 ->
  outcome (install_listener h s) = Fulfilled tt
  /\ events (install_listener h s)
     = [NetFetch (request_of_path h "/");
        NetFetch (request_of_path h "/manifest.json");
        NetFetch (request_of_path h "/favicon.ico");
        SkipWaiting]
  /\ (exists c,
        storage_get (storage (install_listener h s)) STATIC_CACHE = Some c
        /\ cache_match c (request_of_path h "/") = Some r1
        /\ cache_match c (request_of_path h "/manifest.json") = Some r2
        /\ cache_match c (request_of_path h "/favicon.ico") = Some r3).
Proof.
  intros Hs Ho A1 A2 A3.
  split; [apply install_never_rejects|]. split.
  - rewrite (install_run_ok h s r1 r2 r3 Hs Ho A1 A2 A3). reflexivity.
  - apply (install_static_store h s r1 r2 r3 Hs Ho A1 A2 A3).
Qed.

Lemma install_precaches_manifest_witness :
  outcome (install_listener (serving "v1") legacy_storage) = Fulfilled tt
  /\ events (install_listener (serving "v1") legacy_storage)
     = [NetFetch (request_of_path (serving "v1") "/");
        NetFetch (request_of_path (serving "v1") "/manifest.json");
        NetFetch (request_of_path (serving "v1") "/favicon.ico");
        SkipWaiting]
  /\ (exists c,
        storage_get (storage (install_listener (serving "v1") legacy_storage))
                    STATIC_CACHE = Some c
        /\ cache_match c (request_of_path (serving "v1") "/")
           = Some (mkResponse 200 [] "v1/")
        /\ cache_match c (request_of_path (serving "v1") "/manifest.json")
           = Some (mkResponse 200 [] "v1/manifest.json")
        /\ cache_match c (request_of_path (serving "v1") "/favicon.ico")
           = Some (mkResponse 200 [] "v1/favicon.ico")).
Proof.
  apply (install_precaches_manifest (serving "v1") legacy_storage
           (mkResponse 200 [] "v1/") (mkResponse 200 [] "v1/manifest.json")
           (mkResponse 200 [] "v1/favicon.ico")).
  - right. reflexivity.
  - reflexivity.
  - repeat split. discriminate.
  - repeat split. discriminate.
  - repeat split. discriminate.
Defined.

(** X11: after such an installation a GET of the worker's own root URL is
    answered from the stores when the network is down: [networkFirst]
    returns a stored entry instead of the offline page, and it is the page
    fetched at installation when no store created before the static store
    has an entry for it. *)
Theorem installed_home_served_offline (h h' : Host) (s : CacheStorage)
  (r1 r2 r3 : Response) (R : Request) :
  http_scheme (location h) -> open_succeeds h STATIC_CACHE = true ->
  asset_served h "/" r1 -> asset_served h "/manifest.json" r2 ->
  asset_served h "/favicon.ico" r3 ->
  url R = url (request_of_path h "/") -> method R = "GET" ->
  network h' R = None ->
  exists served,
    storage_match (storage (install_listener h s)) R = Some served
    /\ outcome (networkFirst h' R (storage (install_listener h s)))
       = Fulfilled served
    /\ (storage_match (stores_before s STATIC_CACHE) R = None ->
        served = r1).
Proof.
  intros Hs Ho A1 A2 A3 Hu Hg Hn.
  destruct (install_static_store h s r1 r2 r3 Hs Ho A1 A2 A3)
    as [[c [Hc [H1 _]]] Hb].
  assert (cache_match c R = Some r1) as HR.
  { unfold cache_match in *. rewrite Hg, Hu. exact H1. }
  destruct (storage_match_any_store _ R _ _ _ (storage_get_In _ _ _ Hc) HR)
    as [served Hserved].
  exists served. split; [exact Hserved|]. split.
  - rewrite (networkFirst_offline h' _ R Hn), Hserved. reflexivity.
  - intros Hbefore.
    rewrite (storage_match_first _ R STATIC_CACHE c r1 Hc HR) in Hserved
      by (rewrite Hb; exact Hbefore).
    congruence.
Qed.

Lemma installed_home_served_offline_witness :
  exists served,
    storage_match (storage (install_listener (serving "v1") [])) home
    = Some served
    /\ outcome (networkFirst offline home
                  (storage (install_listener (serving "v1") [])))
       = Fulfilled served
    /\ (storage_match (stores_before [] STATIC_CACHE) home = None ->
        served = mkResponse 200 [] "v1/").
Proof.
  apply (installed_home_served_offline (serving "v1") offline []
           (mkResponse 200 [] "v1/") (mkResponse 200 [] "v1/manifest.json")
           (mkResponse 200 [] "v1/favicon.ico") home);
    try reflexivity.
  - right. reflexivity.
  - repeat split. discriminate.
  - repeat split. discriminate.
  - repeat split. discriminate.
Defined.

(** ** Stores an operation leaves alone *)

Lemma preserves_ret {A} (n : string) (a : A) : preserves n (ret a).
Proof. intros s. reflexivity. Qed.

Lemma preserves_throw {A} (n : string) (e : Exn) : preserves n (@throw A e).
Proof. intros s. reflexivity. Qed.

Lemma preserves_emit (n : string) (ev : Event) : preserves n (emit ev).
Proof. intros s. reflexivity. Qed.

Lemma preserves_bind {A B} (n : string) (m : Async A) (k : A -> Async B) :
  preserves n m -> (forall a, preserves n (k a)) -> preserves n (bind m k).
Proof.
  intros Hm Hk s. unfold bind. specialize (Hm s).
  destruct (outcome (m s)) as [a|e]; cbn [storage]; [|exact Hm].
  rewrite (Hk a). exact Hm.
Qed.

Lemma preserves_try_catch {A} (n : string) (m : Async A)
  (handler : Exn -> Async A) :
  preserves n m -> (forall e, preserves n (handler e)) ->
  preserves n (try_catch m handler).
Proof.
  intros Hm Hh s. unfold try_catch. specialize (Hm s).
  destruct (outcome (m s)) as [a|e]; cbn [storage]; [exact Hm|].
  rewrite (Hh e). exact Hm.
Qed.

Lemma preserves_atomically {A} (n : string) (m : Async A) :
  preserves n m -> preserves n (atomically m).
Proof.
  intros Hm s. unfold atomically. specialize (Hm s).
  destruct (outcome (m s)); [exact Hm | reflexivity].
Qed.

Lemma preserves_Promise_all {A} (n : string) (ps : list (Async A)) :
  (forall p, In p ps -> preserves n p) -> preserves n (Promise_all ps).
Proof.
  induction ps as [|p ps IH]; intros Hps s; [reflexivity|].
  cbn [Promise_all storage].
  rewrite IH by (intros q Hq; apply Hps; right; exact Hq).
  apply Hps. left. reflexivity.
Qed.

Lemma preserves_sequence_ (n : string) (ms : list (Async unit)) :
  (forall m, In m ms -> preserves n m) -> preserves n (sequence_ ms).
Proof.
  induction ms as [|m ms IH]; intros Hms; [apply preserves_ret|].
  cbn [sequence_]. apply preserves_bind.
  - apply Hms. left. reflexivity.
  - intros _. apply IH. intros q Hq. apply Hms. right. exact Hq.
Qed.

Lemma preserves_fetch (h : Host) (n : string) (R : Request) :
  preserves n (fetch h R).
Proof. intros s. unfold fetch. destruct (network h R); reflexivity. Qed.

Lemma preserves_caches_open (h : Host) (n name : string) :
  n <> name -> preserves n (caches_open h name).
Proof.
  intros Hn s. unfold caches_open.
  destruct (open_succeeds h name); [|reflexivity].
  apply (storage_get_with_store_other s name n Hn).
Qed.

Lemma preserves_cache_put (h : Host) (n name : string) (R : Request)
  (r : Response) :
  n <> name -> preserves n (cache_put h name R r).
Proof.
  intros Hn s. rewrite cache_put_run.
  destruct (put_type_error R r); [reflexivity|].
  destruct (put_succeeds h name R); [|reflexivity].
  apply storage_get_update_other, Hn.
Qed.

Lemma preserves_cache_addAll (h : Host) (n name : string)
  (paths : list string) :
  n <> name -> preserves n (cache_addAll h name paths).
Proof.
  intros Hn. unfold cache_addAll. apply preserves_bind.
  - apply preserves_Promise_all. intros p Hp.
    apply in_map_iff in Hp. destruct Hp as [R [<- _]].
    apply preserves_fetch.
  - intros responses. destruct (forallb ok responses);
      [|apply preserves_throw].
    apply preserves_atomically, preserves_sequence_. intros m Hm.
    apply in_map_iff in Hm. destruct Hm as [[R r] [<- _]].
    apply preserves_cache_put, Hn.
Qed.

(** The handle [caches.open(name)] fulfils with is [name]. *)
Lemma preserves_open_then {B} (h : Host) (n name : string)
  (k : string -> Async B) :
  n <> name -> preserves n (k name) ->
  preserves n (bind (caches_open h name) k).
Proof.
  intros Hn Hk s. unfold bind, caches_open.
  destruct (open_succeeds h name); cbn [outcome storage]; [|reflexivity].
  rewrite Hk. apply (storage_get_with_store_other s name n Hn).
Qed.

(** X12: the installation creates, writes and deletes no store but
    static-v1, whether it goes through or fails at any step. *)
Theorem install_touches_only_static (h : Host) (s : CacheStorage)
  (n : string) :
  n <> STATIC_CACHE ->
  storage_get (storage (install_listener h s)) n = storage_get s n.
Proof.
  intros Hn. revert s. fold (preserves n (install_listener h)).
  unfold install_listener, log, DEBUG, skipWaiting, console_error.
  apply preserves_bind; [apply preserves_ret|]. intros _.
  apply preserves_try_catch; [|intros e; apply preserves_emit].
  apply preserves_open_then; [exact Hn|].
  apply preserves_bind; [apply preserves_ret|]. intros _.
  apply preserves_bind; [apply preserves_cache_addAll, Hn|]. intros _.
  apply preserves_bind; [apply preserves_ret|]. intros _.
  apply preserves_emit.
Qed.

Lemma install_touches_only_static_witness :
  storage_get (storage (install_listener (serving "v1") three_stores))
              DYNAMIC_CACHE
  = storage_get three_stores DYNAMIC_CACHE.
Proof.
  apply (install_touches_only_static (serving "v1") three_stores
           DYNAMIC_CACHE).
  discriminate.
Defined.

(** ** Activation, whatever the host does *)

Lemma stale_among_names (s : CacheStorage) (k : string) :
  In k (storage_names s) ->
  existsb (String.eqb k) (filter is_stale (storage_names s)) = is_stale k.
Proof.
  intros Hin. destruct (is_stale k) eqn:E.
  - apply existsb_exists. exists k. split; [|apply String.eqb_refl].
    apply filter_In. auto.
  - destruct (existsb (String.eqb k) (filter is_stale (storage_names s)))
      eqn:Ex; [|reflexivity].
    apply existsb_exists in Ex. destruct Ex as [m [Hm Hkm]].
    apply String.eqb_eq in Hkm. subst m.
    apply filter_In in Hm. destruct Hm as [_ Hm]. congruence.
Qed.

(** X13: activation removes every store with a stale name whose deletion
    goes through, also when the deletion of another one rejects, and
    removes nothing else; the stores that stay keep their order and their
    entries.  When the enumeration of the stores fails nothing is
    removed. *)
Theorem activate_removes_what_it_can (h : Host) (s : CacheStorage) :
  storage (activate_listener h s)
  = if keys_succeeds h then
      filter (fun p => negb (is_stale (fst p) && delete_succeeds h (fst p))) s
    else s.
Proof.
  destruct (keys_succeeds h) eqn:Ek.
  - rewrite (activate_keys_ok h s Ek). cbn [storage]. rewrite purge_storage.
    apply filter_ext_in. intros [k c] Hin. cbn [fst].
    rewrite stale_among_names; [reflexivity|].
    apply in_map_iff. exists (k, c). auto.
  - rewrite (activate_keys_fail h s Ek). reflexivity.
Qed.

(** One failing deletion among two stale stores: the other one goes. *)
Example activate_partial_cleanup :
  storage_names
    (storage (activate_listener delete_failing
                (three_stores ++ [("older-v0", [])])%list))
  = ["static-v1"; "dynamic-v1"; "old-v0"]
  /\ events (activate_listener delete_failing
               (three_stores ++ [("older-v0", [])])%list)
     = [CacheDelete "old-v0"; CacheDelete "older-v0";
        ConsoleError "Service Worker activation failed:" StorageError].
Proof. split; reflexivity. Qed.

Lemma no_stale_left (s : CacheStorage) :
  filter is_stale
    (storage_names (filter (fun p => negb (is_stale (fst p))) s)) = [].
Proof.
  induction s as [|[k c] s IH]; [reflexivity|]. cbn [filter fst].
  destruct (is_stale k) eqn:E; cbn [negb]; [exact IH|].
  cbn [storage_names map fst filter]. rewrite E. exact IH.
Qed.

(** X14: activation is idempotent: when the enumeration and the deletions
    go through, activating again on what the first activation left deletes
    nothing, changes nothing and only claims the clients. *)
Theorem activate_twice (h : Host) (s : CacheStorage) :
  keys_succeeds h = true -> (forall n, delete_succeeds h n = true) ->
  activate_listener h (storage (activate_listener h s))
  = mkRun (Fulfilled tt) (storage (activate_listener h s)) [ClientsClaim].
Proof.
  intros Hk Hd.
  assert (storage (activate_listener h s)
          = filter (fun p => negb (is_stale (fst p))) s) as Hs.
  { rewrite (activate_keys_ok h s Hk). cbn [storage]. rewrite purge_storage.
    apply filter_ext_in. intros [k c] Hin. cbn [fst].
    rewrite Hd, andb_true_r, stale_among_names; [reflexivity|].
    apply in_map_iff. exists (k, c). auto. }
  rewrite Hs, (activate_keys_ok h _ Hk), no_stale_left. reflexivity.
Qed.

Lemma activate_twice_witness :
  activate_listener (serving "v1")
    (storage (activate_listener (serving "v1") three_stores))
  = mkRun (Fulfilled tt)
          (storage (activate_listener (serving "v1") three_stores))
          [ClientsClaim].
Proof.
  apply (activate_twice (serving "v1") three_stores); reflexivity.
Defined.

(** ** Every request is answered, unless the lookup fails *)













(** Without network and with a failing lookup a navigation gets no
    response at all. *)
Example lookup_failure_reaches_the_page :
  outcome (networkFirst_on false offline home three_stores)
  = Rejected StorageError
  /\ outcome (cacheFirst_on false (serving "v1") app_js three_stores)
     = Rejected StorageError.
Proof. split; reflexivity. Qed.

(** ** The [sync] listener *)

(** Only the tag [background-sync] starts the routine, which logs and
    touches neither the network nor the stores. *)
Example sync_listener_tags :
  sync_listener "periodic-sync" = None
  /\ (exists routine,
        sync_listener "background-sync" = Some routine
        /\ routine three_stores
           = mkRun (Fulfilled tt) three_stores
                   [ConsoleLog "Background sync triggered"]).
Proof. split; [reflexivity | eexists; split; reflexivity]. Qed.

Module ResourcePreloaderFacts.
Import ResourcePreloader.

Lemma has_In (set : list string) (x : string) :
  has set x = true <-> In x set.
Proof.
  unfold has. rewrite existsb_exists. split.
  - intros [y [Hy E]]. apply String.eqb_eq in E. subst y. exact Hy.
  - intros H. exists x. split; [exact H | apply String.eqb_refl].
Qed.

Lemma has_app (set : list string) (x y : string) :
  has (set ++ [y]) x = has set x || String.eqb x y.
Proof.
  unfold has. rewrite existsb_app. simpl. rewrite orb_false_r. reflexivity.
Qed.

(** What a preloading call does: nothing when the URL is recorded, one
    link with that URL appended and the URL recorded otherwise. *)
Lemma preloads_step (u : string) (f : Page -> Page) (w : Page) :
  preloads u f ->
  (has (preloadedResources w) u = true /\ f w = w)
  \/ (has (preloadedResources w) u = false
      /\ exists link, href link = u
         /\ f w = {| preloadedResources := preloadedResources w ++ [u];
                     preloadQueue := preloadQueue w;
                     isProcessing := isProcessing w;
                     head := head w ++ [link] |}).
Proof.
  intros Hf. destruct (has (preloadedResources w) u) eqn:E.
  - left. split; [reflexivity|].
    destruct Hf; unfold preloadImage, preloadFont, preloadModule, preloadCSS;
      rewrite E; reflexivity.
  - right. split; [reflexivity|].
    destruct Hf; unfold preloadImage, preloadFont, preloadModule, preloadCSS,
      append_and_record; rewrite E;
      (eexists; split; [|reflexivity]; reflexivity).
Qed.

(** X15: a URL is preloaded at most once: after any of the four preloading
    methods was called for a URL, a further call of any of them for the
    same URL, whatever the kind and the priority, changes neither the
    document head nor the preloader. *)
Theorem preloaded_once (u : string) (f g : Page -> Page) (w : Page) :
  preloads u f -> preloads u g -> g (f w) = f w.
Proof.
  intros Hf Hg.
  assert (has (preloadedResources (f w)) u = true) as Hrec.
  { destruct (preloads_step u f w Hf) as [[E ->] | [_ [link [_ ->]]]];
      [exact E|].
    cbn [preloadedResources]. rewrite has_app, String.eqb_refl.
    apply orb_true_r. }
  destruct (preloads_step u g (f w) Hg) as [[_ H] | [E _]];
    [exact H | congruence].
Qed.


Lemma consistent_preload (u : string) (f : Page -> Page) (w : Page) :
  preloads u f -> consistent w -> consistent (f w).
Proof.
  intros Hf [Hh Hn].
  destruct (preloads_step u f w Hf) as [[_ ->] | [E [link [Hl ->]]]];
    [split; assumption|].
  split; cbn [head preloadedResources].
  - rewrite map_app, Hh. cbn [map]. rewrite Hl. reflexivity.
  - apply NoDup_app; [exact Hn | repeat constructor; intros [] |].
    intros x Hx [<- | []]. apply has_In in Hx. congruence.
Qed.

Lemma consistent_each (resources : list Resource) (w : Page) :
  consistent w -> consistent (preloadEach resources w).
Proof.
  unfold preloadEach. revert w.
  induction resources as [|r rs IH]; intros w Hw; [exact Hw|].
  cbn [fold_left]. apply IH.
  destruct (String.eqb (type r) "image");
    [apply (consistent_preload (src r)); [constructor | exact Hw]|].
  destruct (String.eqb (type r) "module");
    [apply (consistent_preload (src r)); [constructor | exact Hw]|].
  exact Hw.
Qed.

Lemma consistent_critical (w : Page) :
  consistent w -> consistent (preloadCriticalResources w).
Proof.
  intros Hw. unfold preloadCriticalResources. cbn [fold_left].
  repeat (eapply consistent_preload; [constructor|]). exact Hw.
Qed.

Lemma reachable_consistent (w : Page) : reachable w -> consistent w.
Proof.
  intros Hr. induction Hr.
  - split; [reflexivity | constructor].
  - eapply consistent_preload; eassumption.
  - apply consistent_critical. assumption.
  - apply consistent_each. assumption.
Qed.

(** X16: starting from a fresh preloader, whatever preloading methods are
    called, the links appended to the document head carry exactly the
    recorded URLs, in the order they were recorded, and no two links carry
    the same URL. *)
Theorem links_match_preloaded (w : Page) :
  reachable w ->
  map href (head w) = preloadedResources w
  /\ NoDup (map href (head w)).
Proof.
  intros Hr. destruct (reachable_consistent w Hr) as [Hh Hn].
  split; [exact Hh | rewrite Hh; exact Hn].
Qed.

(** X17: [cleanup] forgets the recorded URLs but leaves their links in the
    document head, so preloading a URL again after a [cleanup] appends a
    second link for it. *)
Theorem cleanup_forgets_links (u : string) (f : Page -> Page) (w : Page) :
  reachable w -> In u (preloadedResources w) -> preloads u f ->
  In u (map href (head w))
  /\ exists link, href link = u
                 /\ head (f (cleanup w)) = (head w ++ [link])%list.
Proof.
  intros Hr Hu Hf. split.
  - rewrite (proj1 (reachable_consistent w Hr)). exact Hu.
  - destruct (preloads_step u f (cleanup w) Hf)
      as [[E _] | [_ [link [Hl ->]]]]; [discriminate E|].
    exists link. split; [exact Hl | reflexivity].
Qed.

Lemma preloaded_once_witness :
  preloadModule "/js/katalog.js"
    (preloadImage "/js/katalog.js" "low" constructor)
  = preloadImage "/js/katalog.js" "low" constructor.
Proof.
  apply (preloaded_once "/js/katalog.js"
           (preloadImage "/js/katalog.js" "low")
           (preloadModule "/js/katalog.js") constructor); constructor.
Defined.

Lemma links_match_preloaded_witness :
  map href (head (preloadCriticalResources with_logo))
  = preloadedResources (preloadCriticalResources with_logo)
  /\ NoDup (map href (head (preloadCriticalResources with_logo))).
Proof.
  apply (links_match_preloaded (preloadCriticalResources with_logo)).
  apply reach_critical.
  apply (reach_preload "/images/logo.png"); constructor.
Defined.

Lemma cleanup_forgets_links_witness :
  In "/images/logo.png" (map href (head with_logo))
  /\ exists link,
       href link = "/images/logo.png"
       /\ head (preloadImage "/images/logo.png" "high" (cleanup with_logo))
          = (head with_logo ++ [link])%list.
Proof.
  apply (cleanup_forgets_links "/images/logo.png"
           (preloadImage "/images/logo.png" "high") with_logo).
  - apply (reach_preload "/images/logo.png"); constructor.
  - left. reflexivity.
  - constructor.
Defined.

(** The critical resources, preloaded twice over: four links. *)
Example critical_resources_once :
  map href (head (preloadCriticalResources
                    (preloadCriticalResources constructor)))
  = ["/images/logo.png"; "/images/hero-banner.jpg";
     "/fonts/inter-regular.woff2"; "/fonts/inter-medium.woff2"].
Proof. reflexivity. Qed.

End ResourcePreloaderFacts.

Module RouterFacts.
Import Router.

Lemma handleRoute_S (fuel : nat) (isAuthenticated : bool) (path : string) :
  handleRoute (S fuel) isAuthenticated path =
    let navigate target :=
      (target :: fst (handleRoute fuel isAuthenticated target),
       snd (handleRoute fuel isAuthenticated target)) in
    match find_route path with
    | None => navigate "/"
    | Some (key, route) =>
        if requiresAuth route && negb isAuthenticated then navigate "/login"
        else if negb (requiresAuth route) && isAuthenticated
                && String.eqb path "/login" then
          navigate "/admin/dashboard"
        else if truthy (defaultChild route) && String.eqb path key then
          match defaultChild route with
          | Some child => navigate child
          | None => ([], Rendered key route path)
          end
        else ([], Rendered key route path)
    end.
Proof.
  cbn [handleRoute]. cbv zeta.
  destruct (find_route path) as [[key route]|].
  - destruct (requiresAuth route && negb isAuthenticated).
    { destruct (handleRoute fuel isAuthenticated "/login"); reflexivity. }
    destruct (negb (requiresAuth route) && isAuthenticated
              && String.eqb path "/login").
    { destruct (handleRoute fuel isAuthenticated "/admin/dashboard");
        reflexivity. }
    destruct (defaultChild route) as [child|]; [|reflexivity].
    destruct (truthy (Some child) && String.eqb path key); [|reflexivity].
    destruct (handleRoute fuel isAuthenticated child); reflexivity.
  - destruct (handleRoute fuel isAuthenticated "/"); reflexivity.
Qed.

Lemma routes_get_Some (table : list (string * Route)) (path k : string)
  (r : Route) :
  routes_get table path = Some (k, r) -> k = path /\ In (k, r) table.
Proof.
  induction table as [|[k0 r0] table IH]; simpl; [discriminate|].
  destruct (String.eqb k0 path) eqn:E.
  - intros H. inversion H; subst. apply String.eqb_eq in E. auto.
  - intros H. destruct (IH H). auto.
Qed.

Lemma routes_get_None (table : list (string * Route)) (path k : string)
  (r : Route) :
  routes_get table path = None -> In (k, r) table ->
  String.eqb path k = false.
Proof.
  induction table as [|[k0 r0] table IH]; simpl; [intros _ []|].
  destruct (String.eqb k0 path) eqn:E; [discriminate|].
  intros H [Heq | Hin]; [|apply IH; assumption].
  inversion Heq; subst. rewrite String.eqb_sym. exact E.
Qed.

(** Only [/admin] has a default child: the loop finds it for every path
    that begins with [/admin] and finds nothing otherwise. *)
Lemma parent_route_admin (path : string) :
  parent_route routes path =
    if startsWith path "/admin"
    then Some ("/admin",
               mkRoute "AdminDashboard" true (Some "/admin/dashboard") None)
    else None.
Proof.
  unfold routes. cbn [parent_route defaultChild truthy].
  rewrite !andb_false_r. cbn [String.eqb Ascii.eqb Bool.eqb negb andb].
  rewrite andb_true_r.
  destruct (startsWith path "/admin"); reflexivity.
Qed.

Lemma find_route_unregistered (path : string) :
  routes_get routes path = None ->
  find_route path =
    if startsWith path "/admin"
    then Some ("/admin",
               mkRoute "AdminDashboard" true (Some "/admin/dashboard") None)
    else None.
Proof.
  intros H. unfold find_route. rewrite H. apply parent_route_admin.
Qed.

(** X18: whatever the path and the answer of the authentication check,
    [handleRoute] ends by rendering a route of the table after at most one
    redirect, and a deeper bound on the re-entries changes nothing. *)
Theorem handleRoute_settles (isAuthenticated : bool) (path : string) :
  exists replaced key route shown,
    (forall fuel,
        handleRoute (S (S fuel)) isAuthenticated path
        = (replaced, Rendered key route shown))
    /\ (length replaced <= 1)%nat
    /\ In (key, route) routes.
Proof.
  destruct (routes_get routes path) as [[k r]|] eqn:E.
  - destruct (routes_get_Some routes path k r E) as [-> Hin].
    clear E. unfold routes in Hin. cbn [In] in Hin.
    repeat (destruct Hin as [Hin | Hin];
            [ inversion Hin; subst; clear Hin; destruct isAuthenticated;
              do 4 eexists;
              (split; [intros fuel; cbn; reflexivity|]);
              (split; [cbn; lia | cbn; tauto])
            | ]).
    destruct Hin.
  - pose proof (find_route_unregistered path E) as Hf.
    pose proof (routes_get_None routes path "/admin"
                  (mkRoute "AdminDashboard" true (Some "/admin/dashboard")
                           None) E) as Ha.
    destruct (startsWith path "/admin") eqn:Es.
    + destruct isAuthenticated.
      * exists [], "/admin",
          (mkRoute "AdminDashboard" true (Some "/admin/dashboard") None),
          path.
        split; [|split; [cbn; lia | cbn; tauto]].
        intros fuel. rewrite handleRoute_S, Hf. cbn.
        rewrite Ha by (cbn; tauto). rewrite ?andb_false_r. reflexivity.
      * do 4 eexists.
        split; [|split].
        -- intros fuel. rewrite handleRoute_S, Hf. cbn. reflexivity.
        -- cbn. lia.
        -- cbn. tauto.
    + destruct isAuthenticated; do 4 eexists; (split; [|split]);
        try (intros fuel; rewrite handleRoute_S, Hf; cbn; reflexivity);
        try (cbn; lia); cbn; tauto.
Qed.

(** X19: as long as the authentication check answers no, [handleRoute]
    never renders a route that requires authentication, from whatever
    path it starts. *)
Theorem protected_routes_need_auth (fuel : nat) (path : string)
  (replaced : list string) (key : string) (route : Route) (shown : string) :
  handleRoute fuel false path = (replaced, Rendered key route shown) ->
  requiresAuth route = false.
Proof.
  revert path replaced. induction fuel as [|fuel IH]; intros path replaced.
  - cbn. discriminate.
  - rewrite handleRoute_S. cbv zeta.
    assert (forall target,
              (target :: fst (handleRoute fuel false target),
               snd (handleRoute fuel false target))
              = (replaced, Rendered key route shown) ->
              requiresAuth route = false) as Hnav.
    { intros target H. inversion H as [[Hr He]].
      apply (IH target (fst (handleRoute fuel false target))).
      rewrite <- He. apply surjective_pairing. }
    destruct (find_route path) as [[k r]|]; [|apply Hnav].
    destruct (requiresAuth r) eqn:Er; cbn [andb negb]; [apply Hnav|].
    destruct (truthy (defaultChild r) && String.eqb path k).
    + destruct (defaultChild r); [apply Hnav|].
      intros H. inversion H; subst. exact Er.
    + intros H. inversion H; subst. exact Er.
Qed.

(** X20: a path that is not in the table and does not begin with
    [/admin] is replaced by [/] and the home page is rendered, signed in
    or not. *)
Theorem unregistered_path_goes_home (isAuthenticated : bool) (path : string)
  (fuel : nat) :
  routes_get routes path = None -> startsWith path "/admin" = false ->
  handleRoute (S (S fuel)) isAuthenticated path
  = (["/"], Rendered "/" (mkRoute "HomePage" false None None) "/").
Proof.
  intros E Es. rewrite handleRoute_S, (find_route_unregistered path E), Es.
  destruct isAuthenticated; reflexivity.
Qed.

(** X21: a path that is not in the table but begins with [/admin], such as
    [/administrator], is treated as the admin route: with authentication
    the admin dashboard component is rendered under that very path,
    without a redirect; without, the login page replaces it. *)
Theorem admin_prefix_is_admin_shell (path : string) (fuel : nat) :
  routes_get routes path = None -> startsWith path "/admin" = true ->
  handleRoute (S (S fuel)) true path
  = ([], Rendered "/admin"
           (mkRoute "AdminDashboard" true (Some "/admin/dashboard") None)
           path)
  /\ handleRoute (S (S fuel)) false path
     = (["/login"],
        Rendered "/login" (mkRoute "LoginPage" false None None) "/login").
Proof.
  intros E Es.
  pose proof (routes_get_None routes path "/admin"
                (mkRoute "AdminDashboard" true (Some "/admin/dashboard")
                         None) E) as Ha.
  rewrite !handleRoute_S, (find_route_unregistered path E), Es. cbn.
  rewrite Ha by (cbn; tauto). rewrite ?andb_false_r. split; reflexivity.
Qed.

Lemma protected_routes_need_auth_witness :
  requiresAuth (mkRoute "LoginPage" false None None) = false.
Proof.
  apply (protected_routes_need_auth 2 "/admin/products" ["/login"] "/login"
           (mkRoute "LoginPage" false None None) "/login").
  reflexivity.
Defined.

Lemma unregistered_path_goes_home_witness :
  handleRoute 2 true "/cart"
  = (["/"], Rendered "/" (mkRoute "HomePage" false None None) "/").
Proof.
  apply (unregistered_path_goes_home true "/cart" 0); reflexivity.
Defined.

Lemma admin_prefix_is_admin_shell_witness :
  handleRoute 2 true "/administrator"
  = ([], Rendered "/admin"
           (mkRoute "AdminDashboard" true (Some "/admin/dashboard") None)
           "/administrator")
  /\ handleRoute 2 false "/administrator"
     = (["/login"],
        Rendered "/login" (mkRoute "LoginPage" false None None) "/login").
Proof.
  apply (admin_prefix_is_admin_shell "/administrator" 0); reflexivity.
Defined.

(** Signed in, [/login] and [/admin] both end on the dashboard page. *)
Example signed_in_redirects :
  handleRoute 2 true "/login"
  = (["/admin/dashboard"],
     Rendered "/admin/dashboard"
       (mkRoute "DashboardPage" true None (Some "/admin"))
       "/admin/dashboard")
  /\ handleRoute 2 true "/admin"
     = (["/admin/dashboard"],
        Rendered "/admin/dashboard"
          (mkRoute "DashboardPage" true None (Some "/admin"))
          "/admin/dashboard").
Proof. split; reflexivity. Qed.


Lemma append_empty_r (s : string) : s ++ EmptyString = s.
Proof. induction s as [|c s IH]; cbn; [reflexivity | rewrite IH; reflexivity]. Qed.

Lemma append_snoc (piece : string) (c : ascii) (rest : string) :
  (piece ++ String c EmptyString) ++ rest = piece ++ String c rest.
Proof.
  induction piece as [|d piece IH]; cbn; [reflexivity|].
  rewrite IH. reflexivity.
Qed.

(** A string without the separator is one piece. *)
Lemma split_from_whole (sep s piece : string) :
  includes s sep = false ->
  split_from sep s O piece = [piece ++ s].
Proof.
  revert piece. induction s as [|c rest IH]; intros piece H.
  - cbn. rewrite append_empty_r. reflexivity.
  - cbn [includes] in H. cbn [split_from].
    destruct (String.prefix sep (String c rest)); [discriminate H|].
    rewrite (IH _ H), append_snoc. reflexivity.
Qed.

(** The first piece begins with what was collected so far. *)
Lemma split_from_head (sep s piece : string) :
  exists more pieces, split_from sep s O piece = (piece ++ more) :: pieces.
Proof.
  revert piece. induction s as [|c rest IH]; intros piece.
  - exists EmptyString, []. cbn. rewrite append_empty_r. reflexivity.
  - cbn [split_from]. destruct (String.prefix sep (String c rest)).
    + exists EmptyString. eexists. rewrite append_empty_r. reflexivity.
    + destruct (IH (piece ++ String c EmptyString)) as [more [pieces H]].
      exists (String c more), pieces. rewrite H, append_snoc. reflexivity.
Qed.

Lemma prefix_empty (s : string) : String.prefix EmptyString s = true.
Proof. destruct s; reflexivity. Qed.

(** X26: a hash link of the old form [#/detail/<id>], with an id that is
    not empty and does not contain [/detail/], is redirected to
    [/detail?id=<id>]. *)
Theorem hash_detail_id (productId : string) :
  productId <> EmptyString -> includes productId "/detail/" = false ->
  handleHashRoute ("#/detail/" ++ productId)
  = Redirect ("/detail?id=" ++ productId).
Proof.
  intros Hne Hin.
  assert (negb (String.eqb productId EmptyString) = true) as Ht.
  { apply negb_true_iff, String.eqb_neq. exact Hne. }
  unfold handleHashRoute, startsWith, split.
  cbn [append String.prefix substring1].
  cbn. rewrite !prefix_empty, (split_from_whole "/detail/" productId _ Hin).
  cbn [append]. rewrite Ht.
  destruct (if String.prefix "detail?" productId then true
            else includes productId "/detail?"); [|reflexivity].
  destruct (split_from_head "?" productId "/detail/") as [more [pieces ->]].
  destruct pieces as [|query pieces]; reflexivity.
Qed.

(** X27: a hash link [#/detail?<query>], with a query that is not empty
    and has no further question mark, is redirected to
    [/detail?<query>]. *)
Theorem hash_detail_query (query : string) :
  query <> EmptyString -> includes query "?" = false ->
  handleHashRoute ("#/detail?" ++ query) = Redirect ("/detail?" ++ query).
Proof.
  intros Hne Hin.
  assert (negb (String.eqb query EmptyString) = true) as Ht.
  { apply negb_true_iff, String.eqb_neq. exact Hne. }
  unfold handleHashRoute, startsWith, split.
  cbn [append String.prefix substring1].
  cbn. rewrite !prefix_empty, (split_from_whole "?" query _ Hin).
  cbn [append]. rewrite Ht. reflexivity.
Qed.

Lemma hash_detail_id_witness :
  handleHashRoute ("#/detail/" ++ "42") = Redirect ("/detail?id=" ++ "42").
Proof. apply (hash_detail_id "42"); [discriminate | reflexivity]. Defined.

Lemma hash_detail_query_witness :
  handleHashRoute ("#/detail?" ++ "id=5") = Redirect ("/detail?" ++ "id=5").
Proof. apply (hash_detail_query "id=5"); [discriminate | reflexivity]. Defined.

(** A second question mark cuts the query short; an empty product id and a
    hash that is no path are left as they are. *)
Example hash_route_samples :
  handleHashRoute "#/detail?id=5?ref=home" = Redirect "/detail?id=5"
  /\ handleHashRoute "#/detail/" = Redirect "/detail/"
  /\ handleHashRoute "#/katalog" = Redirect "/katalog"
  /\ handleHashRoute "#top" = Routed.
Proof. repeat split. Qed.

End RouterFacts.

Module LazyLoaderFacts.
Import LazyLoader.

Lemma map_get_set {V} (m : list (string * V)) (key : string) (v : V) :
  map_get (map_set m key v) key = Some v.
Proof.
  induction m as [|[k v0] m IH]; simpl.
  - rewrite String.eqb_refl. reflexivity.
  - destruct (String.eqb k key) eqn:E; simpl; rewrite E;
      [reflexivity | exact IH].
Qed.

Lemma map_get_set_other {V} (m : list (string * V)) (key k : string) (v : V) :
  k <> key -> map_get (map_set m key v) k = map_get m k.
Proof.
  intros Hk. induction m as [|[k0 v0] m IH]; simpl.
  - destruct (String.eqb key k) eqn:E; [|reflexivity].
    apply String.eqb_eq in E. congruence.
  - destruct (String.eqb k0 key) eqn:E; simpl.
    + apply String.eqb_eq in E. subst k0.
      destruct (String.eqb key k) eqn:E'; [|reflexivity].
      apply String.eqb_eq in E'. congruence.
    + rewrite IH. reflexivity.
Qed.

Lemma map_get_delete {V} (m : list (string * V)) (key : string) :
  map_get (map_delete m key) key = None.
Proof.
  unfold map_delete. induction m as [|[k v] m IH]; simpl; [reflexivity|].
  destruct (String.eqb k key) eqn:E; simpl; [exact IH|].
  rewrite E. exact IH.
Qed.

Lemma map_get_delete_other {V} (m : list (string * V)) (key k : string) :
  k <> key -> map_get (map_delete m key) k = map_get m k.
Proof.
  intros Hk. unfold map_delete.
  induction m as [|[k0 v] m IH]; simpl; [reflexivity|].
  destruct (String.eqb k0 key) eqn:E; simpl.
  - apply String.eqb_eq in E. subst k0.
    destruct (String.eqb key k) eqn:E'; [|exact IH].
    apply String.eqb_eq in E'. congruence.
  - rewrite IH. reflexivity.
Qed.

(** X22: once the import of a key resolved, the component, which is the
    default export of the module or else the module itself, is in the
    cache under the key, and a later [loadComponent] of the key returns it
    without importing anything and without changing the loader. *)
Theorem resolved_import_is_cached (key : string) (module : Module_)
  (l : Loader) :
  let component := fst (import_resolved key module l) in
  let l' := snd (import_resolved key module l) in
  component = match default module with
              | Some d => d
              | None => itself module
              end
  /\ loadComponent key l' = (Ready component, l').
Proof.
  cbv zeta. split; [reflexivity|].
  unfold loadComponent, import_resolved. cbn [fst snd cache].
  rewrite map_get_set. reflexivity.
Qed.

(** X23: a key that is not cached gets a pending promise, and a second
    [loadComponent] of the key made before the import settles gets the
    same promise and starts no second import. *)
Theorem pending_import_is_joined (key : string) (l : Loader) :
  map_get (cache l) key = None ->
  exists promise,
    fst (loadComponent key l) = Waiting promise
    /\ loadComponent key (snd (loadComponent key l))
       = (Waiting promise, snd (loadComponent key l)).
Proof.
  intros Hc. unfold loadComponent. rewrite Hc.
  destruct (map_get (loadingPromises l) key) as [p|] eqn:Hp.
  - exists p. cbn [fst snd]. rewrite Hc, Hp. split; reflexivity.
  - exists (length (imported l)). cbn [fst snd cache loadingPromises].
    rewrite Hc, map_get_set. split; reflexivity.
Qed.

(** X24: a failed import is not remembered: after the rejection the key is
    neither cached nor loading, and the next [loadComponent] of the key
    calls [importFn] again. *)
Theorem rejected_import_is_retried (key : string) (l : Loader) :
  map_get (cache l) key = None ->
  let l' := import_rejected key l in
  map_get (cache l') key = None
  /\ imported (snd (loadComponent key l')) = (imported l ++ [key])%list.
Proof.
  intros Hc. cbv zeta. unfold loadComponent, import_rejected.
  cbn [cache loadingPromises imported].
  rewrite Hc, map_get_delete. split; reflexivity.
Qed.

Lemma times_app (key k : string) (log : list string) :
  times key (log ++ [k])%list
  = (times key log + (if String.eqb k key then 1 else 0))%nat.
Proof.
  unfold times. rewrite count_occ_app. cbn [count_occ].
  destruct (string_dec k key) as [->|Hn].
  - rewrite String.eqb_refl. reflexivity.
  - apply String.eqb_neq in Hn. rewrite Hn. reflexivity.
Qed.

Lemma map_has_set {V} (m : list (string * V)) (key k : string) (v : V) :
  map_has (map_set m key v) k = String.eqb key k || map_has m k.
Proof.
  unfold map_has. destruct (String.eqb key k) eqn:E.
  - apply String.eqb_eq in E. subst k. rewrite map_get_set. reflexivity.
  - apply String.eqb_neq in E.
    rewrite map_get_set_other by congruence. reflexivity.
Qed.

Lemma map_has_delete {V} (m : list (string * V)) (key k : string) :
  map_has (map_delete m key) k = negb (String.eqb key k) && map_has m k.
Proof.
  unfold map_has. destruct (String.eqb key k) eqn:E.
  - apply String.eqb_eq in E. subst k. rewrite map_get_delete. reflexivity.
  - apply String.eqb_neq in E.
    rewrite map_get_delete_other by congruence. reflexivity.
Qed.

Lemma reachable_accounted (l : Loader) :
  reachable l -> forall key, accounted l key.
Proof.
  intros Hr. induction Hr as [|k l Hr IH|k m l Hr IH Hp|k l Hr IH Hp];
    intros key; unfold accounted.
  - split; [reflexivity | discriminate].
  - destruct (IH key) as [Hcount Hdis].
    unfold loadComponent.
    destruct (map_get (cache l) k) as [c|] eqn:Hc; [split; assumption|].
    destruct (map_get (loadingPromises l) k) as [p|] eqn:Hl;
      [split; assumption|].
    cbn [snd cache loadingPromises imported failures].
    rewrite times_app, map_has_set.
    destruct (String.eqb k key) eqn:E; cbn [orb].
    + apply String.eqb_eq in E. subst key.
      unfold map_has in *. rewrite Hc, Hl in *. split; [lia | discriminate].
    + split; [lia | exact Hdis].
  - destruct (IH key) as [Hcount Hdis].
    unfold import_resolved.
    cbn [snd cache loadingPromises imported failures].
    rewrite map_has_set, map_has_delete.
    destruct (String.eqb k key) eqn:E; cbn [orb negb andb].
    + apply String.eqb_eq in E. subst key. rewrite Hp in *.
      destruct (map_has (cache l) k); [specialize (Hdis eq_refl); discriminate|].
      split; [lia | reflexivity].
    + split; [exact Hcount | exact Hdis].
  - destruct (IH key) as [Hcount Hdis].
    unfold import_rejected.
    cbn [cache loadingPromises imported failures].
    rewrite times_app, map_has_delete.
    destruct (String.eqb k key) eqn:E; cbn [negb andb].
    + apply String.eqb_eq in E. subst key. rewrite Hp in *.
      split; [lia | reflexivity].
    + split; [lia | exact Hdis].
Qed.

(** X25: in every state the loader reaches from new through calls of
    [loadComponent] and settlements of pending imports, a key was imported
    at most once more than its import failed: a component is imported
    again only after a failure, and a cached one was imported exactly once
    since the last failure. *)
Theorem imported_again_only_after_failure (l : Loader) (key : string) :
  reachable l ->
  (times key (imported l) <= times key (failures l) + 1)%nat
  /\ (map_has (cache l) key = true ->
      times key (imported l) = (times key (failures l) + 1)%nat).
Proof.
  intros Hr. destruct (reachable_accounted l Hr key) as [Hcount Hdis].
  split.
  - destruct (map_has (cache l) key) eqn:Hc.
    + rewrite (Hdis eq_refl) in Hcount. lia.
    + destruct (map_has (loadingPromises l) key); lia.
  - intros Hc. rewrite Hc, (Hdis Hc) in Hcount. lia.
Qed.

Lemma pending_import_is_joined_witness :
  exists promise,
    fst (loadComponent "HomePage" constructor) = Waiting promise
    /\ loadComponent "HomePage" (snd (loadComponent "HomePage" constructor))
       = (Waiting promise, snd (loadComponent "HomePage" constructor)).
Proof.
  apply (pending_import_is_joined "HomePage" constructor). reflexivity.
Defined.

Lemma rejected_import_is_retried_witness :
  map_get (cache (import_rejected "HomePage" loading_home)) "HomePage" = None
  /\ imported (snd (loadComponent "HomePage"
                      (import_rejected "HomePage" loading_home)))
     = (imported loading_home ++ ["HomePage"])%list.
Proof.
  apply (rejected_import_is_retried "HomePage" loading_home). reflexivity.
Defined.

Lemma imported_again_only_after_failure_witness :
  (times "HomePage"
         (imported (snd (loadComponent "HomePage"
                           (import_rejected "HomePage" loading_home))))
   <= times "HomePage"
            (failures (snd (loadComponent "HomePage"
                              (import_rejected "HomePage" loading_home))))
      + 1)%nat
  /\ (map_has (cache (snd (loadComponent "HomePage"
                             (import_rejected "HomePage" loading_home))))
              "HomePage" = true ->
      times "HomePage"
            (imported (snd (loadComponent "HomePage"
                              (import_rejected "HomePage" loading_home))))
      = (times "HomePage"
               (failures (snd (loadComponent "HomePage"
                                 (import_rejected "HomePage" loading_home))))
         + 1)%nat).
Proof.
  apply (imported_again_only_after_failure
           (snd (loadComponent "HomePage"
                   (import_rejected "HomePage" loading_home)))
           "HomePage").
  apply reach_load. apply reach_rejected; [|reflexivity].
  apply reach_load. apply reach_new.
Defined.

End LazyLoaderFacts.
